(** * chatbot.ts: an agent chat script, embedded and verified

    The script validates its environment, builds an agent from external SDKs,
    persists the wallet export to [wallet_data.txt] and runs a line-based chat
    loop.  Everything it does is an effect, so the embedding is a small
    process monad: a computation maps a [world] to an [outcome], a new world
    and the [trace] of events it performed.  External collaborators (the
    SDKs, the agent, the user typing at the prompt) are oracles. *)

From Stdlib Require Import ZArith Ascii String List Lia.
From stdpp Require Import base strings list gmap.

Local Open Scope string_scope.
Local Open Scope Z_scope.
Local Open Scope list_scope.

(** ** Strings

    Strings are modelled over single-byte characters; [toLowerCase] maps the
    letters [A]..[Z] to [a]..[z] and leaves every other character alone, as
    [String.prototype.toLowerCase] does on that range. *)

Definition lower_ascii (c : ascii) : ascii :=
  let n := nat_of_ascii c in
  if ((65 <=? n)%nat && (n <=? 90)%nat)%bool then ascii_of_nat (n + 32) else c.

Fixpoint toLowerCase (s : string) : string :=
  match s with
  | EmptyString => EmptyString
  | String c r => String (lower_ascii c) (toLowerCase r)
  end.

Definition LF : string := String (ascii_of_nat 10) EmptyString.

(** ** Values *)

(** What a [catch] clause can receive: an [Error] instance, which has a
    [message], or any other thrown value. *)
Inductive thrown : Type :=
| ErrorObj (message : string)
| NonError (value : string).

Definition instanceofError (e : thrown) : bool :=
  match e with ErrorObj _ => true | NonError _ => false end.

Definition message (e : thrown) : string :=
  match e with ErrorObj m => m | NonError _ => "" end.

(** Arguments handed to [console.log] and friends. *)
Inductive logarg : Type :=
| Str (s : string)
| Val (e : thrown)
| Stack (e : thrown).

(** JavaScript truthiness of [process.env[name]]: [undefined] and the empty
    string are falsy. *)
Definition truthy (v : option string) : bool :=
  match v with
  | Some (String _ _) => true
  | _ => false
  end.

(** [a || b] on an optional string and a default. *)
Definition or_default (v : option string) (d : string) : string :=
  match v with
  | Some (String c r) => String c r
  | _ => d
  end.

(** [a || undefined]. *)
Definition or_undefined (v : option string) : option string :=
  match v with
  | Some (String c r) => Some (String c r)
  | _ => None
  end.

Record WalletConfig : Type := mkWalletConfig {
  apiKeyName : option string;
  apiKeyPrivateKey : option string;
  cdpWalletData : option string;
  networkId : string
}.

Record AgentConfig : Type := mkAgentConfig { thread_id : string }.

(** Streamed chunks: a JS object keyed by node name, each entry carrying a
    [messages] array. *)
Record Message : Type := mkMessage { content : string }.
Record NodeUpdate : Type := mkNodeUpdate { messages : list Message }.
Abbreviation Chunk := (gmap string NodeUpdate).

(** An [agent.stream] call either rejects, or yields finitely many chunks
    and then ends: exhausted ([None]) or by throwing while iterated. *)
Inductive StreamCall : Type :=
| Rejects (e : thrown)
| Yields (chunks : list Chunk) (fin : option thrown).

(** The agent: what it answers to a message, given the messages already
    submitted on its checkpointed thread (oldest first). *)
Record Agent : Type := mkAgent { stream : list string -> string -> StreamCall }.

Inductive result (A : Type) : Type :=
| Ok (a : A)
| Err (e : thrown).
Arguments Ok {A} a.
Arguments Err {A} e.

(** ** Events, worlds, runs *)

Inductive event : Type :=
| ConsoleLog (args : list logarg)
| ConsoleError (args : list logarg)
| ConsoleWarn (args : list logarg)
| ProcessExit (code : Z)
| FsExistsSync (path : string)
| FsReadFileSync (path : string)
| FsWriteFileSync (path : string) (contents : string)
| NewChatOpenAI (model : string)
| ConfigureWithWallet (config : WalletConfig)
| AgentKitFrom (apiKey1 secret1 apiKey2 secret2 : option string)
| GetLangChainTools
| CreateReactAgent (messageModifier : string)
| ExportWallet
| RlCreateInterface
| RlQuestion (prompt : string)
| RlClose
| AgentStream (human_message : string) (thread : string).

Record file : Type := mkFile {
  data : string;
  readable : bool;
  writable : bool
}.

Record world : Type := mkWorld {
  env : gmap string string;      (* process.env, after dotenv.config() *)
  files : gmap string file;      (* the working directory *)
  submitted : list string        (* messages already on the agent's thread *)
}.

(** How a computation ends: it returns, throws, terminates the whole process
    through [process.exit], or stays suspended on input that never comes. *)
Inductive outcome (A : Type) : Type :=
| Done (a : A)
| Throw (e : thrown)
| Exit (code : Z)
| Pending.
Arguments Done {A} a.
Arguments Throw {A} e.
Arguments Exit {A} code.
Arguments Pending {A}.

Record run (A : Type) : Type := mkRun {
  out : outcome A;
  after : world;
  trace : list event
}.
Arguments mkRun {A} out after trace.
Arguments out {A} r.
Arguments after {A} r.
Arguments trace {A} r.

Definition M (A : Type) : Type := world -> run A.

Module Proc.

Definition ret {A} (a : A) : M A := fun w => mkRun (Done a) w [].

(** The run [r], with the events [t] performed before it. *)
Definition prepend {A} (t : list event) (r : run A) : run A :=
  mkRun (out r) (after r) (t ++ trace r).

Definition bind {A B} (m : M A) (f : A -> M B) : M B := fun w =>
  let r := m w in
  match out r with
  | Done a => prepend (trace r) (f a (after r))
  | Throw e => mkRun (Throw e) (after r) (trace r)
  | Exit c => mkRun (Exit c) (after r) (trace r)
  | Pending => mkRun Pending (after r) (trace r)
  end.

Definition emit (e : event) : M unit := fun w => mkRun (Done tt) w [e].

Definition throw {A} (e : thrown) : M A := fun w => mkRun (Throw e) w [].

(** [await] on a promise that is never settled. *)
Definition suspended {A} : M A := fun w => mkRun Pending w [].

(** [process.exit(code)] ends the process synchronously: nothing that
    follows it runs, neither the rest of the block nor an enclosing
    [catch] or [finally]. *)
Definition process_exit {A} (code : Z) : M A := fun w =>
  mkRun (Exit code) w [ProcessExit code].

(** [try { m } catch (error) { h error }]. *)
Definition tryCatch {A} (m : M A) (h : thrown -> M A) : M A := fun w =>
  let r := m w in
  match out r with
  | Throw e => prepend (trace r) (h e (after r))
  | _ => r
  end.

(** The completion of [try { .. } finally { fin }] once [fin] has run: the
    completion [o] of the block stands unless [fin] itself ends abruptly. *)
Definition afterFinally {A} (o : outcome A) (r' : run unit) : run A :=
  mkRun (match out r' with
         | Done _ => o
         | Throw e => Throw e
         | Exit c => Exit c
         | Pending => Pending
         end) (after r') (trace r').

(** [try { m } finally { fin }]: [fin] runs when [m] returns or throws. *)
Definition tryFinally {A} (m : M A) (fin : M unit) : M A := fun w =>
  let r := m w in
  match out r with
  | Done a => prepend (trace r) (afterFinally (Done a) (fin (after r)))
  | Throw e => prepend (trace r) (afterFinally (Throw e) (fin (after r)))
  | Exit c => r
  | Pending => r
  end.

(** [xs.forEach(f)]. *)
Fixpoint forEach {A} (xs : list A) (f : A -> M unit) : M unit :=
  match xs with
  | [] => ret tt
  | x :: rest => bind (f x) (fun _ => forEach rest f)
  end.

(** An external call: it is recorded, then returns or throws. *)
Definition call {A} (e : event) (r : result A) : M A :=
  bind (emit e) (fun _ => match r with Ok a => ret a | Err x => throw x end).

End Proc.
Import Proc.

Notation "x <- m ;; k" := (bind m (fun x => k))
  (at level 100, m at next level, right associativity).
Notation "m ;; k" := (bind m (fun _ => k))
  (at level 100, right associativity).

(** [holds Q m w]: the run of [m] from the world [w] satisfies [Q]. *)
Definition holds {A} (Q : run A -> Prop) (m : M A) (w : world) : Prop :=
  Q (m w).

Definition console_log (args : list logarg) : M unit := emit (ConsoleLog args).
Definition console_error (args : list logarg) : M unit := emit (ConsoleError args).
Definition console_warn (args : list logarg) : M unit := emit (ConsoleWarn args).

Definition process_env (name : string) : M (option string) := fun w =>
  mkRun (Done (env w !! name)) w [].

(** ** The file system calls of [fs] *)

Definition fs_existsSync (path : string) : M bool := fun w =>
  mkRun (Done (bool_decide (is_Some (files w !! path)))) w [FsExistsSync path].

Definition fs_readFileSync (path : string) : M string := fun w =>
  mkRun (match files w !! path with
         | Some f => if readable f then Done (data f)
                     else Throw (ErrorObj "EACCES: permission denied")
         | None => Throw (ErrorObj "ENOENT: no such file or directory")
         end) w [FsReadFileSync path].

Definition fs_writeFileSync (path contents : string) : M unit := fun w =>
  match files w !! path with
  | Some f =>
      if writable f then
        mkRun (Done tt)
              (mkWorld (env w)
                       (<[path := mkFile contents (readable f) true]> (files w))
                       (submitted w))
              [FsWriteFileSync path contents]
      else mkRun (Throw (ErrorObj "EACCES: permission denied")) w
                 [FsWriteFileSync path contents]
  | None =>
      mkRun (Done tt)
            (mkWorld (env w) (<[path := mkFile contents true true]> (files w))
                     (submitted w))
            [FsWriteFileSync path contents]
  end.

(** ** [validateEnvironment] (lines 13-37) *)

Definition requiredVars : list string :=
  ["OPENAI_API_KEY"; "CDP_API_KEY_NAME"; "CDP_API_KEY_PRIVATE_KEY"].

(** The first [forEach] (lines 18-22): push every required name whose value
    is falsy onto [missingVars]. *)
Definition collectMissing (e : gmap string string) : list string :=
  fold_left (fun missingVars varName =>
               if truthy (e !! varName) then missingVars
               else missingVars ++ [varName])
            requiredVars [].

(** The template literal of line 28. *)
Definition placeholder (varName : string) : string :=
  varName +:+ "=your_" +:+ toLowerCase varName +:+ "_here".

Definition validateEnvironment : M unit := fun w =>
  (let missingVars := collectMissing (env w) in
   (if (0 <? length missingVars)%nat then
      console_error [Str "Error: Required environment variables are not set"] ;;
      forEach missingVars (fun varName =>
        console_error [Str (placeholder varName)]) ;;
      process_exit 1
    else ret tt) ;;
   network <- process_env "NETWORK_ID" ;;
   if truthy network then ret tt
   else console_warn
          [Str "Warning: NETWORK_ID not set, defaulting to base-sepolia testnet"]) w.

(** ** [initializeAgent] (lines 47-111) *)

Definition WALLET_DATA_FILE : string := "wallet_data.txt".

Definition model_id : string := "gpt-4o-mini".

Definition messageModifier_text : string :=
  "                  " +:+ LF +:+
  "              You are a helpful agent that can interact onchain using the Coinbase Developer Platform AgentKit and " +:+ LF +:+
  "              can play a Tic-Tac-Toe Game with an agent. " +:+ LF +:+
  "              ".

Definition agentConfig : AgentConfig :=
  mkAgentConfig "CDP AgentKit Chatbot Example!".

Section Script.

(** The shape of a wallet export and [JSON.stringify] on it belong to the
    SDK and the language runtime; the script only composes them. *)
Variable WalletData : Type.
Variable JSON_stringify : WalletData -> string.

Record WalletProvider : Type := mkWalletProvider {
  exportWallet : result WalletData
}.

(** What each SDK entry point answers: a value, or a thrown error. *)
Record Sdk : Type := mkSdk {
  ChatOpenAI : string -> result unit;
  configureWithWallet : WalletConfig -> result WalletProvider;
  AgentKit_from : option string -> option string ->
                  option string -> option string -> result unit;
  getLangChainTools : result unit;
  createReactAgent : string -> result Agent
}.

Variable sdk : Sdk.

(** Lines 53-63: read existing wallet data if available. *)
Definition readExistingWalletData : M (option string) :=
  present <- fs_existsSync WALLET_DATA_FILE ;;
  if (present : bool) then
    tryCatch
      (contents <- fs_readFileSync WALLET_DATA_FILE ;; ret (Some contents))
      (fun error =>
         console_error [Str "Error reading wallet data:"; Val error] ;;
         ret None)
  else ret None.

(** Lines 65-70: the configuration object. *)
Definition buildConfig (walletDataStr : option string) : M WalletConfig :=
  name <- process_env "CDP_API_KEY_NAME" ;;
  key <- process_env "CDP_API_KEY_PRIVATE_KEY" ;;
  network <- process_env "NETWORK_ID" ;;
  ret (mkWalletConfig name key (or_undefined walletDataStr)
                      (or_default network "base-sepolia")).

(** The model client, the snapshot, the wallet provider, the toolkit with
    its two action providers, the tools, the agent, and at the end the
    export written to the snapshot file; the [catch] of lines 107-110 logs
    and rethrows. *)
Definition initializeAgent : M (Agent * AgentConfig) :=
  tryCatch
    (call (NewChatOpenAI model_id) (ChatOpenAI sdk model_id) ;;
     walletDataStr <- readExistingWalletData ;;
     config <- buildConfig walletDataStr ;;
     walletProvider <-
       call (ConfigureWithWallet config) (configureWithWallet sdk config) ;;
     n1 <- process_env "CDP_API_KEY_NAME" ;;
     k1 <- process_env "CDP_API_KEY_PRIVATE_KEY" ;;
     n2 <- process_env "CDP_API_KEY_NAME" ;;
     k2 <- process_env "CDP_API_KEY_PRIVATE_KEY" ;;
     call (AgentKitFrom n1 k1 n2 k2) (AgentKit_from sdk n1 k1 n2 k2) ;;
     call GetLangChainTools (getLangChainTools sdk) ;;
     agent <- call (CreateReactAgent messageModifier_text)
                   (createReactAgent sdk messageModifier_text) ;;
     exportedWallet <- call ExportWallet (exportWallet walletProvider) ;;
     fs_writeFileSync WALLET_DATA_FILE (JSON_stringify exportedWallet) ;;
     ret (agent, agentConfig))
    (fun error =>
       console_error [Str "Failed to initialize agent:"; Val error] ;;
       throw error).

(** ** [runChatMode] (lines 120-178) *)

Definition initialPrompt : string :=
  "What game can the user play against the agent?".

Definition separator : string := "-------------------".

(** [update.messages[0].content]: reading [content] of a missing first
    element throws a [TypeError]. *)
Definition type_error : thrown :=
  ErrorObj "Cannot read properties of undefined (reading 'content')".

Definition firstContent (update : NodeUpdate) : M string :=
  match messages update with
  | m :: _ => ret (content m)
  | [] => throw type_error
  end.

(** The body of both [for await] loops (lines 140-145 and 162-167). *)
Definition printChunk (chunk : Chunk) : M unit :=
  match chunk !! "agent" with
  | Some update => c <- firstContent update ;; console_log [Str c]
  | None =>
      match chunk !! "tools" with
      | Some update => c <- firstContent update ;; console_log [Str c]
      | None => ret tt
      end
  end ;;
  console_log [Str separator].

(** [await agent.stream({ messages: [new HumanMessage(text)] }, config)]:
    the message joins the thread, and the call rejects or hands back a
    stream. *)
Definition agent_stream (agent : Agent) (config : AgentConfig) (text : string)
  : M (list Chunk * option thrown) := fun w =>
  let w' := mkWorld (env w) (files w) (submitted w ++ [text]) in
  match stream agent (submitted w) text with
  | Rejects e => mkRun (Throw e) w' [AgentStream text (thread_id config)]
  | Yields chunks fin =>
      mkRun (Done (chunks, fin)) w' [AgentStream text (thread_id config)]
  end.

(** [for await (const chunk of s) body], for a stream that ends. *)
Fixpoint forAwait (chunks : list Chunk) (fin : option thrown)
         (body : Chunk -> M unit) : M unit :=
  match chunks with
  | [] => match fin with None => ret tt | Some e => throw e end
  | chunk :: rest => body chunk ;; forAwait rest fin body
  end.

(** [await question(prompt)]: the prompt is shown; the promise resolves with
    the next input line, if one ever arrives. *)
Definition question (prompt : string) (line : option string) : M string :=
  emit (RlQuestion prompt) ;;
  match line with Some l => ret l | None => suspended end.

Definition isExit (userInput : string) : bool :=
  String.eqb (toLowerCase userInput) "exit".

(** The [while (true)] loop (lines 148-169), over the lines the user will
    type; each iteration consumes one. *)
Fixpoint chatLoop (agent : Agent) (config : AgentConfig)
         (input : list string) : M unit :=
  match input with
  | [] => _ <- question "> " None ;; ret tt
  | userInput :: rest =>
      userInput <- question "> " (Some userInput) ;;
      if isExit userInput then console_log [Str "Exiting..."]
      else
        s <- agent_stream agent config userInput ;;
        forAwait (fst s) (snd s) printChunk ;;
        chatLoop agent config rest
  end.

(** The reader is created before the [try]; the [catch] clause (lines
    170-174) ends in [process.exit(1)]; the [finally] clause (lines 175-177)
    closes the reader. *)
Definition runChatMode (agent : Agent) (config : AgentConfig)
           (input : list string) : M unit :=
  console_log [Str "Running in chat mode... Type 'exit' to quit"] ;;
  emit RlCreateInterface ;;
  tryFinally
    (tryCatch
       (console_log [Str (LF +:+ "Prompt: " +:+ initialPrompt)] ;;
        initialStream <- agent_stream agent config initialPrompt ;;
        forAwait (fst initialStream) (snd initialStream) printChunk ;;
        chatLoop agent config input)
       (fun error =>
          (if instanceofError error
           then console_error [Str "Error:"; Str (message error)]
           else ret tt) ;;
          process_exit 1))
    (emit RlClose).

(** ** [main] (lines 181-195) and the top level of the module *)

Definition main (input : list string) : M unit :=
  tryCatch
    (console_log [Str "Initializing agent..."] ;;
     ac <- initializeAgent ;;
     console_log [Str "Agent initialized successfully."] ;;
     console_log [Str "Starting chat mode..."] ;;
     runChatMode (fst ac) (snd ac) input)
    (fun error =>
       (if instanceofError error
        then console_error [Str "Detailed error:"; Val error] ;;
             console_error [Str "Error stack:"; Stack error]
        else ret tt) ;;
       process_exit 1).

(** The module body, run as the entry script: [validateEnvironment()] at
    line 39, then lines 197-200. *)
Definition program (input : list string) : M unit :=
  validateEnvironment ;;
  console_log [Str "Starting chatbot..."] ;;
  main input.

End Script.

Arguments mkWalletProvider {WalletData} _.
Arguments exportWallet {WalletData} _.
Arguments mkSdk {WalletData} _ _ _ _ _.
Arguments ChatOpenAI {WalletData} _ _.
Arguments configureWithWallet {WalletData} _ _.
Arguments AgentKit_from {WalletData} _ _ _ _ _.
Arguments getLangChainTools {WalletData} _.
Arguments createReactAgent {WalletData} _ _.
Arguments initializeAgent {WalletData} JSON_stringify sdk _.
Arguments main {WalletData} JSON_stringify sdk input _.
Arguments program {WalletData} JSON_stringify sdk input _.

(** The status the operating system sees: [process.exit(c)] gives [c]; a
    script whose work is finished exits with 0; an uncaught exception gives
    1; a process still waiting for input has not exited. *)
Definition exit_status {A} (o : outcome A) : option Z :=
  match o with
  | Done _ => Some 0
  | Exit c => Some c
  | Throw _ => Some 1
  | Pending => None
  end.

(** ** Reading a trace

    From here on nothing is code of the script: these definitions are the
    vocabulary in which its properties are stated. *)

Definition is_close (e : event) : bool :=
  match e with RlClose => true | _ => false end.

Definition is_question (e : event) : bool :=
  match e with RlQuestion _ => true | _ => false end.

Definition is_exit (e : event) : bool :=
  match e with ProcessExit _ => true | _ => false end.

Definition is_stream (e : event) : bool :=
  match e with AgentStream _ _ => true | _ => false end.

Definition count (p : event -> bool) (t : list event) : nat :=
  length (List.filter p t).

(** The messages handed to [agent.stream], in order. *)
Fixpoint forwarded (t : list event) : list string :=
  match t with
  | [] => []
  | AgentStream text _ :: rest => text :: forwarded rest
  | _ :: rest => forwarded rest
  end.

(** Whether an event is a file-system call on [path]. *)
Definition touches (path : string) (e : event) : bool :=
  match e with
  | FsExistsSync p | FsReadFileSync p | FsWriteFileSync p _ => String.eqb p path
  | _ => false
  end.

Definition wallet_accesses (t : list event) : list event :=
  List.filter (touches WALLET_DATA_FILE) t.

(** Events the chat loop can perform: console output, the line reader, the
    agent, and [process.exit]. *)
Definition chat_event (e : event) : bool :=
  match e with
  | ConsoleLog _ | ConsoleError _ | ProcessExit _
  | RlCreateInterface | RlQuestion _ | RlClose | AgentStream _ _ => true
  | _ => false
  end.

(** What draining a stream of chunks prints when every chunk is printable:
    the first message of the [agent] entry, else of the [tools] entry, then
    the separator. *)
Definition printed (chunk : Chunk) : list event :=
  match chunk !! "agent" with
  | Some update =>
      match messages update with
      | m :: _ => [ConsoleLog [Str (content m)]; ConsoleLog [Str separator]]
      | [] => []
      end
  | None =>
      match chunk !! "tools" with
      | Some update =>
          match messages update with
          | m :: _ => [ConsoleLog [Str (content m)]; ConsoleLog [Str separator]]
          | [] => []
          end
      | None => [ConsoleLog [Str separator]]
      end
  end.

(** A chunk whose selected entry has a first message. *)
Definition printable (chunk : Chunk) : bool :=
  match chunk !! "agent" with
  | Some update => match messages update with _ :: _ => true | [] => false end
  | None =>
      match chunk !! "tools" with
      | Some update => match messages update with _ :: _ => true | [] => false end
      | None => true
      end
  end.

(** A response that is delivered and drained to its end. *)
Definition complete (r : StreamCall) : bool :=
  match r with
  | Yields chunks None => forallb printable chunks
  | _ => false
  end.

Definition chunks_of (r : StreamCall) : list Chunk :=
  match r with Yields chunks _ => chunks | Rejects _ => [] end.

(** What draining a stream prints, and the error that stops it, if any:
    an unprintable chunk, or the stream's own failure after its last chunk. *)
Fixpoint drain (chunks : list Chunk) (fin : option thrown)
  : list event * option thrown :=
  match chunks with
  | [] => ([], fin)
  | c :: rest =>
      if printable c
      then (printed c ++ fst (drain rest fin), snd (drain rest fin))
      else ([], Some type_error)
  end.

(** The same for a whole [agent.stream] call. *)
Definition answer (r : StreamCall) : list event * option thrown :=
  match r with
  | Rejects e => ([], Some e)
  | Yields chunks fin => drain chunks fin
  end.

(** The world once [text] has been submitted to the agent. *)
Definition sent (w : world) (text : string) : world :=
  mkWorld (env w) (files w) (submitted w ++ [text]).

(** What [runChatMode] does before anything reaches the agent. *)
Definition opening : list event :=
  [ConsoleLog [Str "Running in chat mode... Type 'exit' to quit"];
   RlCreateInterface;
   ConsoleLog [Str (LF +:+ "Prompt: " +:+ initialPrompt)]].

(** What the [catch] clause of [runChatMode] prints for a thrown value. *)
Definition error_report (e : thrown) : list event :=
  if instanceofError e then [ConsoleError [Str "Error:"; Str (message e)]]
  else [].

(** What the [try]/[catch]/[finally] of [runChatMode] makes of a run of its
    [try] block. *)
Definition guarded (r : run unit) : run unit :=
  match out r with
  | Done a => mkRun (Done a) (after r) (trace r ++ [RlClose])
  | Throw e =>
      mkRun (Exit 1) (after r) (trace r ++ error_report e ++ [ProcessExit 1])
  | Exit c => mkRun (Exit c) (after r) (trace r)
  | Pending => mkRun Pending (after r) (trace r)
  end.

(** Events of the loop itself: prompts, console output, agent calls. *)
Definition loop_event (e : event) : bool :=
  match e with
  | ConsoleLog _ | RlQuestion _ | AgentStream _ _ => true
  | _ => false
  end.

(** What the [catch] clause of [main] prints for a thrown value. *)
Definition main_report (e : thrown) : list event :=
  if instanceofError e
  then [ConsoleError [Str "Detailed error:"; Val e];
        ConsoleError [Str "Error stack:"; Stack e]]
  else [].

(** Events of initialization: SDK calls, file-system calls, error logs. *)
Definition init_event (e : event) : bool :=
  match e with
  | NewChatOpenAI _ | ConfigureWithWallet _ | AgentKitFrom _ _ _ _
  | GetLangChainTools | CreateReactAgent _ | ExportWallet
  | FsExistsSync _ | FsReadFileSync _ | FsWriteFileSync _ _
  | ConsoleError _ => true
  | _ => false
  end.

(** What the module prints before [initializeAgent] is entered. *)
Definition preamble (w : world) : list event :=
  trace (validateEnvironment w)
    ++ [ConsoleLog [Str "Starting chatbot..."];
        ConsoleLog [Str "Initializing agent..."]].

Definition handover : list event :=
  [ConsoleLog [Str "Agent initialized successfully."];
   ConsoleLog [Str "Starting chat mode..."]].

(** One turn as it appears in the trace: the message goes to the agent and
    every chunk of the answer is printed. *)
Definition turn (agent : Agent) (config : AgentConfig)
           (history : list string) (text : string) : list event :=
  AgentStream text (thread_id config)
    :: flat_map printed (chunks_of (stream agent history text)).

(** The turns of consecutive input lines, each behind its own prompt. *)
Fixpoint turns (agent : Agent) (config : AgentConfig)
         (history : list string) (lines : list string) : list event :=
  match lines with
  | [] => []
  | l :: rest =>
      (RlQuestion "> " :: turn agent config history l)
        ++ turns agent config (history ++ [l]) rest
  end.

(** Every one of the given lines gets a complete response. *)
Fixpoint all_complete (agent : Agent) (history : list string)
         (lines : list string) : bool :=
  match lines with
  | [] => true
  | l :: rest =>
      complete (stream agent history l)
      && all_complete agent (history ++ [l]) rest
  end.

(** The prior wallet state a world offers: the contents of a readable
    snapshot file. *)
Definition snapshot_of (w : world) : option string :=
  match files w !! WALLET_DATA_FILE with
  | Some f => if readable f then Some (data f) else None
  | None => None
  end.

(** The configuration [initializeAgent] hands to the wallet provider. *)
Definition config_of (w : world) : WalletConfig :=
  mkWalletConfig (env w !! "CDP_API_KEY_NAME")
                 (env w !! "CDP_API_KEY_PRIVATE_KEY")
                 (or_undefined (snapshot_of w))
                 (or_default (env w !! "NETWORK_ID") "base-sepolia").

(** The accesses of the loading step: an existence test, then a read when
    the file is there. *)
Definition probe (w : world) : list event :=
  FsExistsSync WALLET_DATA_FILE
    :: match files w !! WALLET_DATA_FILE with
       | Some _ => [FsReadFileSync WALLET_DATA_FILE]
       | None => []
       end.

(** The required names whose value is absent or empty, in the order of
    [requiredVars]. *)
Definition missing (e : gmap string string) : list string :=
  List.filter (fun v => negb (truthy (e !! v))) requiredVars.

Definition env_warning : event :=
  ConsoleWarn
    [Str "Warning: NETWORK_ID not set, defaulting to base-sepolia testnet"].

(** A variable the environment gives no value, or the empty string. *)
Definition unset (w : world) (name : string) : Prop :=
  env w !! name = None \/ env w !! name = Some "".

(** The given line on the error console if the variable is unset, nothing
    otherwise. *)
Definition line_if_unset (w : world) (name line : string) : list event :=
  match env w !! name with
  | Some (String _ _) => []
  | _ => [ConsoleError [Str line]]
  end.

(** The sixteen spellings of the exit command. *)
Definition exit_spellings : list string :=
  ["exit"; "exiT"; "exIt"; "exIT"; "eXit"; "eXiT"; "eXIt"; "eXIT";
   "Exit"; "ExiT"; "ExIt"; "ExIT"; "EXit"; "EXiT"; "EXIt"; "EXIT"].

(** ** Concrete collaborators and worlds *)

Definition echoAgent : Agent :=
  mkAgent (fun history text =>
    Yields [ {[ "agent" := mkNodeUpdate [mkMessage ("re: " +:+ text)] ]};
             {[ "tools" := mkNodeUpdate [mkMessage "tool output"] ]};
             ∅ ] None).

Definition failingAgent : Agent :=
  mkAgent (fun history text => Rejects (ErrorObj "boom")).

(** An agent whose answer opens with a chunk that has an [agent] entry
    without messages beside a [tools] entry with one. *)
Definition emptyEntryAgent : Agent :=
  mkAgent (fun history text =>
    Yields [ {[ "agent" := mkNodeUpdate [];
                "tools" := mkNodeUpdate [mkMessage "tool output"] ]};
             {[ "agent" := mkNodeUpdate [mkMessage "never shown"] ]} ] None).

(** A world in which one credential is present, one is empty and one is
    absent. *)
Definition partialWorld : world :=
  mkWorld {[ "OPENAI_API_KEY" := "sk"; "CDP_API_KEY_NAME" := "" ]} ∅ [].

Definition braces (s : string) : string := "{" +:+ s +:+ "}".

Definition sdkWith (agent : Agent) : Sdk string :=
  mkSdk (fun _ => Ok tt)
        (fun _ => Ok (mkWalletProvider (Ok "seed")))
        (fun _ _ _ _ => Ok tt)
        (Ok tt)
        (fun _ => Ok agent).

Definition credentials : gmap string string :=
  {[ "OPENAI_API_KEY" := "sk"; "CDP_API_KEY_NAME" := "name";
     "CDP_API_KEY_PRIVATE_KEY" := "key" ]}.

Definition freshWorld : world := mkWorld credentials ∅ [].

Definition snapshotWorld : world :=
  mkWorld credentials {[ WALLET_DATA_FILE := mkFile "{old}" true true ]} [].

Definition unreadableWorld : world :=
  mkWorld credentials {[ WALLET_DATA_FILE := mkFile "{old}" false true ]} [].

Definition bareWorld : world := mkWorld ∅ ∅ [].

(** ** More vocabulary: the steps of initialization, the line reader *)

Definition is_create (e : event) : bool :=
  match e with RlCreateInterface => true | _ => false end.

(** Calls into the SDKs made by [initializeAgent]. *)
Definition sdk_call (e : event) : bool :=
  match e with
  | NewChatOpenAI _ | ConfigureWithWallet _ | AgentKitFrom _ _ _ _
  | GetLangChainTools | CreateReactAgent _ | ExportWallet => true
  | _ => false
  end.

(** Those calls in the order of the source, with the arguments a world
    determines. *)
Definition sdk_sequence (w : world) : list event :=
  [NewChatOpenAI model_id;
   ConfigureWithWallet (config_of w);
   AgentKitFrom (env w !! "CDP_API_KEY_NAME")
                (env w !! "CDP_API_KEY_PRIVATE_KEY")
                (env w !! "CDP_API_KEY_NAME")
                (env w !! "CDP_API_KEY_PRIVATE_KEY");
   GetLangChainTools;
   CreateReactAgent messageModifier_text;
   ExportWallet].

(** The log line of the [catch] clause of [initializeAgent] (line 108). *)
Definition failure_log (e : thrown) : event :=
  ConsoleError [Str "Failed to initialize agent:"; Val e].

Definition is_failure_log (e : event) : bool :=
  match e with
  | ConsoleError (Str s :: _) => String.eqb s "Failed to initialize agent:"
  | _ => false
  end.

(** Everything [initializeAgent] needs in order to return [agent]: each SDK
    call answers, and the snapshot file, if there is one, can be written. *)
Definition init_succeeds {WalletData : Type} (sdk : Sdk WalletData)
           (w : world) (agent : Agent) : Prop :=
  (exists u, ChatOpenAI sdk model_id = Ok u)
  /\ (exists wp d, configureWithWallet sdk (config_of w) = Ok wp
                   /\ exportWallet wp = Ok d)
  /\ (exists u, AgentKit_from sdk (env w !! "CDP_API_KEY_NAME")
                   (env w !! "CDP_API_KEY_PRIVATE_KEY")
                   (env w !! "CDP_API_KEY_NAME")
                   (env w !! "CDP_API_KEY_PRIVATE_KEY") = Ok u)
  /\ (exists u, getLangChainTools sdk = Ok u)
  /\ createReactAgent sdk messageModifier_text = Ok agent
  /\ (forall f, files w !! WALLET_DATA_FILE = Some f -> writable f = true).

(** Whether the snapshot file will be readable once it has been written. *)
Definition readable_after_write (w : world) : bool :=
  match files w !! WALLET_DATA_FILE with
  | Some f => readable f
  | None => true
  end.

(** More collaborators and worlds. *)

Definition brokenSdk : Sdk string :=
  mkSdk (fun _ => Ok tt)
        (fun _ => Err (ErrorObj "wallet service unavailable"))
        (fun _ _ _ _ => Ok tt)
        (Ok tt)
        (fun _ => Ok echoAgent).

Definition lockedWorld : world :=
  mkWorld credentials {[ WALLET_DATA_FILE := mkFile "{old}" true false ]} [].

Definition emptySnapshotWorld : world :=
  mkWorld credentials {[ WALLET_DATA_FILE := mkFile "" true true ]} [].

Definition mainnetWorld : world :=
  mkWorld (<[ "NETWORK_ID" := "base-mainnet" ]> credentials) ∅ [].

(** An agent that answers the scripted prompt, then fails in the middle of
    its next answer. *)
Definition flakyAgent : Agent :=
  mkAgent (fun history text =>
    match history with
    | [] => Yields [ {[ "agent" := mkNodeUpdate [mkMessage "hello"] ]} ] None
    | _ => Yields [ {[ "agent" := mkNodeUpdate [mkMessage "thinking"] ]} ]
                  (Some (ErrorObj "connection lost"))
    end).

(** An agent whose answer holds an [agent] entry without messages. *)
Definition hollowAgent : Agent :=
  mkAgent (fun history text =>
    Yields [ {[ "tools" := mkNodeUpdate [mkMessage "lookup"] ]};
             {[ "agent" := mkNodeUpdate [] ]};
             {[ "agent" := mkNodeUpdate [mkMessage "never shown"] ]} ] None).

Definition is_warning (e : event) : bool :=
  match e with ConsoleWarn _ => true | _ => false end.

Definition emptyNetworkWorld : world :=
  mkWorld (<[ "NETWORK_ID" := "" ]> credentials) ∅ [].

(** * Properties *)

(** ** The process monad *)

Lemma bind_done {A B} (m : M A) (f : A -> M B) w a w' t :
  m w = mkRun (Done a) w' t -> bind m f w = prepend t (f a w').
Proof. intros H. unfold bind. rewrite H. reflexivity. Qed.

Lemma bind_exit {A B} (m : M A) (f : A -> M B) w c w' t :
  m w = mkRun (Exit c) w' t -> bind m f w = mkRun (Exit c) w' t.
Proof. intros H. unfold bind. rewrite H. reflexivity. Qed.

Lemma forEach_emit {A} (xs : list A) (g : A -> event) w :
  forEach xs (fun x => emit (g x)) w = mkRun (Done tt) w (map g xs).
Proof.
  revert w. induction xs as [|x xs IH]; intros w; [reflexivity|].
  simpl. unfold bind, emit. cbn [out after trace]. rewrite IH. reflexivity.
Qed.

(** ** [validateEnvironment] *)

Lemma collectMissing_filter e : collectMissing e = missing e.
Proof.
  unfold collectMissing, missing, requiredVars. simpl.
  destruct (truthy (e !! "OPENAI_API_KEY"));
    destruct (truthy (e !! "CDP_API_KEY_NAME"));
    destruct (truthy (e !! "CDP_API_KEY_PRIVATE_KEY")); reflexivity.
Qed.

Lemma truthy_false (v : option string) :
  truthy v = false <-> v = None \/ v = Some "".
Proof.
  destruct v as [[|c r]|]; simpl; split; intros H; auto;
    try discriminate; destruct H as [H|H]; discriminate.
Qed.

Lemma missing_nonempty e :
  missing e <> [] <->
  exists v, In v requiredVars /\ (e !! v = None \/ e !! v = Some "").
Proof.
  split.
  - intros H. destruct (missing e) as [|v l] eqn:E; [congruence|].
    assert (In v (missing e)) as Hin by (rewrite E; left; reflexivity).
    apply filter_In in Hin as [Hin Hv]. exists v. split; [exact Hin|].
    apply truthy_false. destruct (truthy (e !! v)); [discriminate|reflexivity].
  - intros (v & Hin & Hv) E.
    assert (In v (missing e)) as Hm.
    { apply filter_In. split; [exact Hin|].
      apply truthy_false in Hv. rewrite Hv. reflexivity. }
    rewrite E in Hm. destruct Hm.
Qed.

Lemma validateEnvironment_run w :
  validateEnvironment w =
  match missing (env w) with
  | [] => mkRun (Done tt) w
            (if truthy (env w !! "NETWORK_ID") then [] else [env_warning])
  | names =>
      mkRun (Exit 1) w
        (ConsoleError [Str "Error: Required environment variables are not set"]
           :: map (fun v => ConsoleError [Str (placeholder v)]) names
           ++ [ProcessExit 1])
  end.
Proof.
  unfold validateEnvironment. rewrite collectMissing_filter.
  destruct (missing (env w)) as [|v l] eqn:E.
  - simpl. unfold bind, process_env, ret. simpl.
    destruct (truthy (env w !! "NETWORK_ID")); reflexivity.
  - change (0 <? length (v :: l))%nat with true. cbv iota.
    unfold console_error.
    apply bind_exit.
    rewrite (bind_done _ _ w tt w
               [ConsoleError
                  [Str "Error: Required environment variables are not set"]])
      by reflexivity.
    rewrite (bind_done _ _ w tt w
               (map (fun v => ConsoleError [Str (placeholder v)]) (v :: l)))
      by exact (forEach_emit (v :: l)
                  (fun v => ConsoleError [Str (placeholder v)]) w).
    reflexivity.
Qed.

Lemma missing_spec e v :
  In v (missing e) <->
  In v requiredVars /\ (e !! v = None \/ e !! v = Some "").
Proof.
  unfold missing. rewrite filter_In, <- truthy_false.
  destruct (truthy (e !! v)); simpl; intuition congruence.
Qed.

(** C4. [validateEnvironment] ends the process with status 1 exactly when one
    of [OPENAI_API_KEY], [CDP_API_KEY_NAME], [CDP_API_KEY_PRIVATE_KEY] is
    absent or empty.  When it does, it has printed the heading and then, for
    every one of the three that is unset and in that order, the placeholder
    assignment of that name, and [process.exit(1)] is the last thing it did;
    when all three are set it returns and no [process.exit] has happened. *)
Theorem validateEnvironment_exits_iff_missing (w : world) :
  (out (validateEnvironment w) = Exit 1 <->
   unset w "OPENAI_API_KEY" \/ unset w "CDP_API_KEY_NAME"
   \/ unset w "CDP_API_KEY_PRIVATE_KEY")
  /\ (out (validateEnvironment w) = Exit 1 ->
      trace (validateEnvironment w) =
      ConsoleError [Str "Error: Required environment variables are not set"]
        :: line_if_unset w "OPENAI_API_KEY"
             "OPENAI_API_KEY=your_openai_api_key_here"
        ++ line_if_unset w "CDP_API_KEY_NAME"
             "CDP_API_KEY_NAME=your_cdp_api_key_name_here"
        ++ line_if_unset w "CDP_API_KEY_PRIVATE_KEY"
             "CDP_API_KEY_PRIVATE_KEY=your_cdp_api_key_private_key_here"
        ++ [ProcessExit 1])
  /\ (~ unset w "OPENAI_API_KEY" -> ~ unset w "CDP_API_KEY_NAME" ->
      ~ unset w "CDP_API_KEY_PRIVATE_KEY" ->
      out (validateEnvironment w) = Done tt
      /\ count is_exit (trace (validateEnvironment w)) = 0%nat).
Proof.
  rewrite validateEnvironment_run.
  unfold missing, requiredVars, unset, line_if_unset. cbn [List.filter].
  destruct (env w !! "OPENAI_API_KEY") as [[|c1 r1]|];
    destruct (env w !! "CDP_API_KEY_NAME") as [[|c2 r2]|];
    destruct (env w !! "CDP_API_KEY_PRIVATE_KEY") as [[|c3 r3]|];
    cbn [truthy negb out trace map app];
    (split; [intuition congruence|split]);
    try (intros _; reflexivity); try (intros H; discriminate H);
    try (intros H1 H2 H3; exfalso; intuition congruence).
  intros _ _ _. split; [reflexivity|].
  destruct (truthy (env w !! "NETWORK_ID")); reflexivity.
Qed.

(** One name set, one empty, one absent: both unset names are reported, the
    empty one like the absent one. *)
Example validateEnvironment_partial :
  validateEnvironment partialWorld =
  mkRun (Exit 1) partialWorld
    [ConsoleError [Str "Error: Required environment variables are not set"];
     ConsoleError [Str "CDP_API_KEY_NAME=your_cdp_api_key_name_here"];
     ConsoleError [Str "CDP_API_KEY_PRIVATE_KEY=your_cdp_api_key_private_key_here"];
     ProcessExit 1].
Proof. vm_compute. reflexivity. Qed.

(** The scenario of the specification: nothing set, all three names listed. *)
Example validateEnvironment_bare :
  validateEnvironment bareWorld =
  mkRun (Exit 1) bareWorld
    [ConsoleError [Str "Error: Required environment variables are not set"];
     ConsoleError [Str "OPENAI_API_KEY=your_openai_api_key_here"];
     ConsoleError [Str "CDP_API_KEY_NAME=your_cdp_api_key_name_here"];
     ConsoleError [Str "CDP_API_KEY_PRIVATE_KEY=your_cdp_api_key_private_key_here"];
     ProcessExit 1].
Proof. reflexivity. Qed.

(** ** Reasoning about runs, one step at a time *)

Lemma holds_bind {A B} (Q : run B -> Prop) (m : M A) (f : A -> M B) w :
  holds (fun r =>
           match out r with
           | Done a => holds (fun r' => Q (prepend (trace r) r')) (f a) (after r)
           | Throw e => Q (mkRun (Throw e) (after r) (trace r))
           | Exit c => Q (mkRun (Exit c) (after r) (trace r))
           | Pending => Q (mkRun Pending (after r) (trace r))
           end) m w ->
  holds Q (bind m f) w.
Proof. unfold holds, bind. destruct (out (m w)); exact (fun H => H). Qed.

Lemma holds_tryCatch {A} (Q : run A -> Prop) (m : M A) (h : thrown -> M A) w :
  holds (fun r =>
           match out r with
           | Throw e => holds (fun r' => Q (prepend (trace r) r')) (h e) (after r)
           | Done a => Q (mkRun (Done a) (after r) (trace r))
           | Exit c => Q (mkRun (Exit c) (after r) (trace r))
           | Pending => Q (mkRun Pending (after r) (trace r))
           end) m w ->
  holds Q (tryCatch m h) w.
Proof.
  unfold holds, tryCatch. destruct (m w) as [o w' t].
  destruct o; exact (fun H => H).
Qed.

Lemma holds_tryFinally {A} (Q : run A -> Prop) (m : M A) (fin : M unit) w :
  holds (fun r =>
           match out r with
           | Done a =>
               holds (fun r' => Q (prepend (trace r) (afterFinally (Done a) r')))
                     fin (after r)
           | Throw e =>
               holds (fun r' => Q (prepend (trace r) (afterFinally (Throw e) r')))
                     fin (after r)
           | Exit c => Q (mkRun (Exit c) (after r) (trace r))
           | Pending => Q (mkRun Pending (after r) (trace r))
           end) m w ->
  holds Q (tryFinally m fin) w.
Proof.
  unfold holds, tryFinally. destruct (m w) as [o w' t].
  destruct o; exact (fun H => H).
Qed.

Lemma holds_ret {A} (Q : run A -> Prop) (a : A) w :
  Q (mkRun (Done a) w []) -> holds Q (ret a) w.
Proof. exact (fun H => H). Qed.

Lemma holds_emit (Q : run unit -> Prop) (e : event) w :
  Q (mkRun (Done tt) w [e]) -> holds Q (emit e) w.
Proof. exact (fun H => H). Qed.

Lemma holds_throw {A} (Q : run A -> Prop) (e : thrown) w :
  Q (mkRun (Throw e) w []) -> holds Q (throw e) w.
Proof. exact (fun H => H). Qed.

Lemma holds_exit {A} (Q : run A -> Prop) (c : Z) w :
  Q (mkRun (Exit c) w [ProcessExit c]) -> holds Q (process_exit c) w.
Proof. exact (fun H => H). Qed.

Lemma holds_suspended {A} (Q : run A -> Prop) w :
  Q (mkRun Pending w []) -> holds Q suspended w.
Proof. exact (fun H => H). Qed.

Lemma holds_env (Q : run (option string) -> Prop) (name : string) w :
  Q (mkRun (Done (env w !! name)) w []) -> holds Q (process_env name) w.
Proof. exact (fun H => H). Qed.

Lemma holds_call {A} (Q : run A -> Prop) (e : event) (r : result A) w :
  match r with
  | Ok a => Q (mkRun (Done a) w [e])
  | Err x => Q (mkRun (Throw x) w [e])
  end ->
  holds Q (call e r) w.
Proof. unfold holds, call, bind, emit. destruct r; exact (fun H => H). Qed.

Lemma holds_run {A} (Q : run A -> Prop) (m : M A) w r :
  m w = r -> Q r -> holds Q m w.
Proof. intros <-. exact (fun H => H). Qed.

Lemma holds_write (Q : run unit -> Prop) (path contents : string) w :
  match files w !! path with
  | Some f =>
      if writable f then
        Q (mkRun (Done tt)
                 (mkWorld (env w)
                    (<[path := mkFile contents (readable f) true]> (files w))
                    (submitted w))
                 [FsWriteFileSync path contents])
      else Q (mkRun (Throw (ErrorObj "EACCES: permission denied")) w
                    [FsWriteFileSync path contents])
  | None =>
      Q (mkRun (Done tt)
               (mkWorld (env w) (<[path := mkFile contents true true]> (files w))
                        (submitted w))
               [FsWriteFileSync path contents])
  end ->
  holds Q (fs_writeFileSync path contents) w.
Proof.
  unfold holds, fs_writeFileSync.
  destruct (files w !! path) as [f|]; [destruct (writable f)|];
    exact (fun H => H).
Qed.

Lemma readExistingWalletData_run w :
  readExistingWalletData w =
  mkRun (Done (snapshot_of w)) w
    (probe w ++
     match files w !! WALLET_DATA_FILE with
     | Some f =>
         if readable f then []
         else [ConsoleError [Str "Error reading wallet data:";
                             Val (ErrorObj "EACCES: permission denied")]]
     | None => []
     end).
Proof.
  unfold readExistingWalletData, fs_existsSync, fs_readFileSync, bind, tryCatch,
    snapshot_of, probe.
  destruct (files w !! WALLET_DATA_FILE) as [f|] eqn:E.
  - rewrite bool_decide_eq_true_2 by eauto.
    cbn [out after trace]. rewrite E. destruct (readable f); reflexivity.
  - rewrite bool_decide_eq_false_2 by (intros [? ?]; discriminate). reflexivity.
Qed.

(** Facts already known about the snapshot file, pushed into the goal. *)
Ltac use_file_facts :=
  repeat match goal with
         | H : files ?w !! ?p = _ |- context [files ?w !! ?p] => rewrite H
         | H : readable ?f = _ |- context [readable ?f] => rewrite H
         | H : writable ?f = _ |- context [writable ?f] => rewrite H
         end.

Ltac run_step :=
  lazymatch goal with
  | |- holds _ (bind _ _) _ => apply holds_bind
  | |- holds _ (tryCatch _ _) _ => apply holds_tryCatch
  | |- holds _ (tryFinally _ _) _ => apply holds_tryFinally
  | |- holds _ (ret _) _ => apply holds_ret
  | |- holds _ (emit _) _ => apply holds_emit
  | |- holds _ (console_log _) _ => apply holds_emit
  | |- holds _ (console_error _) _ => apply holds_emit
  | |- holds _ (console_warn _) _ => apply holds_emit
  | |- holds _ (throw _) _ => apply holds_throw
  | |- holds _ (process_exit _) _ => apply holds_exit
  | |- holds _ suspended _ => apply holds_suspended
  | |- holds _ (process_env _) _ => apply holds_env
  | |- holds _ (call _ ?r) _ => apply holds_call; destruct r eqn:?
  | |- holds _ readExistingWalletData _ =>
      eapply holds_run; [apply readExistingWalletData_run|];
      unfold probe, snapshot_of; use_file_facts
  | |- holds _ (fs_writeFileSync _ _) _ => apply holds_write; use_file_facts
  | |- holds _ (if ?b then _ else _) _ => destruct b eqn:?
  end; cbn [out after trace prepend afterFinally app].

Ltac run_done := cbn [prepend afterFinally out after trace app fst snd].

(** ** [initializeAgent] *)

Ltac in_cases H :=
  repeat (destruct H as [H|H];
          [first [discriminate H | injection H as <-; reflexivity]|]);
  destruct H.

Section Initialization.

Context {WalletData : Type} (JSON_stringify : WalletData -> string)
        (sdk : Sdk WalletData).

(** Every path through [initializeAgent], at once: what it leaves behind,
    which configuration reaches the wallet provider, and how the snapshot
    file was accessed. *)
Lemma initializeAgent_summary w :
  holds (fun r =>
     env (after r) = env w /\ submitted (after r) = submitted w /\
     Forall (fun e => init_event e = true) (trace r) /\
     (forall c, In (ConfigureWithWallet c) (trace r) -> c = config_of w) /\
     (forall u, ChatOpenAI sdk model_id = Ok u ->
                In (ConfigureWithWallet (config_of w)) (trace r)) /\
     match out r with
     | Done ac =>
         snd ac = agentConfig /\
         exists wp d,
           configureWithWallet sdk (config_of w) = Ok wp /\
           exportWallet wp = Ok d /\
           createReactAgent sdk messageModifier_text = Ok (fst ac) /\
           (exists f, files (after r) !! WALLET_DATA_FILE = Some f /\
                      data f = JSON_stringify d) /\
           (forall p, p <> WALLET_DATA_FILE ->
                      files (after r) !! p = files w !! p) /\
           wallet_accesses (trace r) =
             probe w ++ [FsWriteFileSync WALLET_DATA_FILE (JSON_stringify d)]
     | Throw e =>
         after r = w /\
         (wallet_accesses (trace r) = [] \/
          wallet_accesses (trace r) = probe w \/
          exists d, wallet_accesses (trace r) =
                    probe w ++ [FsWriteFileSync WALLET_DATA_FILE d])
     | _ => False
     end) (initializeAgent JSON_stringify sdk) w.
Proof.
  unfold initializeAgent, buildConfig, config_of, snapshot_of, probe.
  destruct (files w !! WALLET_DATA_FILE) as [f|] eqn:Ef;
    [destruct (readable f) eqn:Er; destruct (writable f) eqn:Ew|].
  all: match goal with |- holds ?Q _ _ => set (post := Q) end.
  all: repeat run_step.
  all: subst post; cbv beta.
  all: run_done.
  all: split; [reflexivity|split; [reflexivity|]].
  all: split; [repeat constructor|].
  all: split; [intros c Hc; cbn [In app] in Hc; in_cases Hc|].
  all: split; [intros u Hu; try discriminate; cbn [In app]; auto 10|].
  all: cbn [fst snd files].
  all: try solve [split; [reflexivity|auto]].
  all: try solve [split; [reflexivity|right; left; reflexivity]].
  all: try solve [split; [reflexivity|right; right; eexists; reflexivity]].
  all: split; [reflexivity|].
  all: do 2 eexists; split; [reflexivity|split; [eassumption|split; [reflexivity|]]].
  all: split; [eexists; split; [apply lookup_insert_eq|reflexivity]|].
  all: split; [intros p Hp; apply lookup_insert_ne; congruence|reflexivity].
Qed.
End Initialization.

(** ** Streams and the chat loop *)

Lemma printChunk_run chunk w :
  printChunk chunk w =
  if printable chunk then mkRun (Done tt) w (printed chunk)
  else mkRun (Throw type_error) w [].
Proof.
  unfold printChunk, printable, printed, firstContent.
  destruct (chunk !! "agent") as [u|]; [|destruct (chunk !! "tools") as [u|]];
    try destruct (messages u); reflexivity.
Qed.

Lemma forAwait_run chunks fin w :
  forAwait chunks fin printChunk w =
  mkRun (match snd (drain chunks fin) with
         | None => Done tt
         | Some e => Throw e
         end) w (fst (drain chunks fin)).
Proof.
  induction chunks as [|c rest IH]; simpl.
  - destruct fin; reflexivity.
  - unfold bind. rewrite printChunk_run.
    destruct (printable c); cbn [out after trace fst snd]; [|reflexivity].
    rewrite IH. reflexivity.
Qed.

Lemma drain_complete chunks :
  forallb printable chunks = true ->
  drain chunks None = (flat_map printed chunks, None).
Proof.
  induction chunks as [|c rest IH]; simpl; [reflexivity|].
  intros H. apply andb_prop in H as [Hc Hr].
  rewrite Hc, (IH Hr). reflexivity.
Qed.

Lemma drain_none chunks fin :
  snd (drain chunks fin) = None ->
  fin = None /\ forallb printable chunks = true.
Proof.
  induction chunks as [|c rest IH]; simpl; [auto|].
  destruct (printable c); simpl; [auto|discriminate].
Qed.

Lemma answer_complete r :
  complete r = true -> answer r = (flat_map printed (chunks_of r), None).
Proof.
  destruct r as [e|chunks [e|]]; simpl; try discriminate.
  apply drain_complete.
Qed.

Lemma answer_none r : snd (answer r) = None -> complete r = true.
Proof.
  destruct r as [e|chunks fin]; simpl; [discriminate|].
  intros H. apply drain_none in H as [-> H]. exact H.
Qed.

(** Draining only ever writes to the console. *)
Lemma printed_logs chunk :
  Forall (fun e => exists args, e = ConsoleLog args) (printed chunk).
Proof.
  unfold printed.
  destruct (chunk !! "agent") as [u|]; [|destruct (chunk !! "tools") as [u|]];
    try destruct (messages u); repeat constructor; eauto.
Qed.

Lemma drain_logs chunks fin :
  Forall (fun e => exists args, e = ConsoleLog args) (fst (drain chunks fin)).
Proof.
  induction chunks as [|c rest IH]; simpl; [constructor|].
  destruct (printable c); simpl; [|constructor].
  apply Forall_app. split; [apply printed_logs|exact IH].
Qed.

Lemma answer_logs r :
  Forall (fun e => exists args, e = ConsoleLog args) (fst (answer r)).
Proof.
  destruct r as [e|chunks fin]; simpl; [constructor|apply drain_logs].
Qed.

Section Chat.

Variables (agent : Agent) (config : AgentConfig).

(** One turn: the message is handed over, the answer drained. *)
Lemma turn_run text (k : M unit) w :
  (s <- agent_stream agent config text ;;
   forAwait (fst s) (snd s) printChunk ;; k) w =
  prepend (AgentStream text (thread_id config)
             :: fst (answer (stream agent (submitted w) text)))
    match snd (answer (stream agent (submitted w) text)) with
    | None => k (sent w text)
    | Some e => mkRun (Throw e) (sent w text) []
    end.
Proof.
  unfold bind at 1. unfold agent_stream.
  destruct (stream agent (submitted w) text) as [e|chunks fin];
    cbn [out after trace fst snd answer]; [reflexivity|].
  unfold bind. rewrite forAwait_run. cbn [out after trace].
  fold (sent w text).
  destruct (snd (drain chunks fin)); unfold prepend; cbn [out after trace];
    rewrite ?app_nil_r, <- ?app_assoc; reflexivity.
Qed.

Lemma chatLoop_nil w :
  chatLoop agent config [] w = mkRun Pending w [RlQuestion "> "].
Proof. reflexivity. Qed.

Lemma chatLoop_exit l rest w :
  isExit l = true ->
  chatLoop agent config (l :: rest) w =
  mkRun (Done tt) w [RlQuestion "> "; ConsoleLog [Str "Exiting..."]].
Proof.
  intros H. cbn [chatLoop].
  rewrite (bind_done _ _ w l w [RlQuestion "> "]) by reflexivity.
  rewrite H. reflexivity.
Qed.

Lemma chatLoop_line l rest w :
  isExit l = false ->
  chatLoop agent config (l :: rest) w =
  prepend (RlQuestion "> " :: AgentStream l (thread_id config)
             :: fst (answer (stream agent (submitted w) l)))
    match snd (answer (stream agent (submitted w) l)) with
    | None => chatLoop agent config rest (sent w l)
    | Some e => mkRun (Throw e) (sent w l) []
    end.
Proof.
  intros H. cbn [chatLoop].
  rewrite (bind_done _ _ w l w [RlQuestion "> "]) by reflexivity.
  rewrite H, turn_run.
  destruct (snd (answer (stream agent (submitted w) l))); reflexivity.
Qed.

Lemma guarded_run (m : M unit) w :
  tryFinally
    (tryCatch m
       (fun error =>
          (if instanceofError error
           then console_error [Str "Error:"; Str (message error)]
           else ret tt) ;;
          process_exit 1))
    (emit RlClose) w = guarded (m w).
Proof.
  unfold tryFinally, tryCatch, guarded.
  destruct (m w) as [o w' t]. destruct o as [[]|e|c|]; cbn [out after trace].
  - reflexivity.
  - unfold error_report. destruct e; reflexivity.
  - reflexivity.
  - reflexivity.
Qed.

Lemma prepend_app {A} (t1 t2 : list event) (r : run A) :
  prepend t1 (prepend t2 r) = prepend (t1 ++ t2) r.
Proof. unfold prepend. cbn [out after trace]. rewrite app_assoc. reflexivity. Qed.

Lemma guarded_prepend t r : guarded (prepend t r) = prepend t (guarded r).
Proof.
  unfold guarded, prepend. destruct r as [o w t']. cbn [out after trace].
  destruct o; cbn [out after trace]; rewrite ?app_assoc; reflexivity.
Qed.

(** [runChatMode], unfolded down to the loop. *)
Lemma runChatMode_run input w :
  runChatMode agent config input w =
  prepend (opening ++ AgentStream initialPrompt (thread_id config)
             :: fst (answer (stream agent (submitted w) initialPrompt)))
    (guarded
       match snd (answer (stream agent (submitted w) initialPrompt)) with
       | None => chatLoop agent config input (sent w initialPrompt)
       | Some e => mkRun (Throw e) (sent w initialPrompt) []
       end).
Proof.
  unfold runChatMode, console_log.
  rewrite (bind_done _ _ w tt w
             [ConsoleLog [Str "Running in chat mode... Type 'exit' to quit"]])
    by reflexivity.
  rewrite (bind_done _ _ w tt w [RlCreateInterface]) by reflexivity.
  rewrite guarded_run.
  rewrite (bind_done _ _ w tt w
             [ConsoleLog [Str (LF +:+ "Prompt: " +:+ initialPrompt)]])
    by reflexivity.
  rewrite turn_run, !guarded_prepend, !prepend_app. reflexivity.
Qed.

(** *** Lists of events *)

Lemma count_app p (t1 t2 : list event) :
  count p (t1 ++ t2) = (count p t1 + count p t2)%nat.
Proof. unfold count. rewrite List.filter_app, length_app. reflexivity. Qed.

Lemma count_none p (t : list event) :
  Forall (fun e => p e = false) t -> count p t = 0%nat.
Proof.
  unfold count. induction 1 as [|e t He _ IH]; simpl; [reflexivity|].
  rewrite He. exact IH.
Qed.

Lemma forwarded_app (t1 t2 : list event) :
  forwarded (t1 ++ t2) = forwarded t1 ++ forwarded t2.
Proof.
  induction t1 as [|e t1 IH]; simpl; [reflexivity|].
  destruct e; simpl; rewrite IH; reflexivity.
Qed.

Lemma forwarded_logs (t : list event) :
  Forall (fun e => exists args, e = ConsoleLog args) t -> forwarded t = [].
Proof.
  induction 1 as [|e t [args ->] _ IH]; simpl; [reflexivity|exact IH].
Qed.

Lemma logs_are (p : event -> bool) (t : list event) b :
  (forall args, p (ConsoleLog args) = b) ->
  Forall (fun e => exists args, e = ConsoleLog args) t ->
  Forall (fun e => p e = b) t.
Proof.
  intros Hp H. induction H as [|e t [args ->] _ IH]; constructor; auto.
Qed.

(** A question found in [A ++ B], where [A] asks none, lies in [B]. *)
Lemma question_after_quiet (A B pre post : list event) q :
  Forall (fun e => is_question e = false) A ->
  is_question q = true ->
  pre ++ q :: post = A ++ B ->
  exists pre', pre = A ++ pre' /\ pre' ++ q :: post = B.
Proof.
  intros HA Hq. revert pre.
  induction HA as [|a A Ha _ IH]; intros pre E; simpl in E.
  - exists pre. split; [reflexivity|exact E].
  - destruct pre as [|p pre]; simpl in E; injection E as E1 E2.
    + subst a. congruence.
    + subst p. destruct (IH pre E2) as (pre' & -> & E'). exists pre'.
      split; [reflexivity|exact E'].
Qed.

(** A question found in [B ++ C], where [C] asks none, lies in [B]. *)
Lemma question_before_quiet (B C pre post : list event) q :
  Forall (fun e => is_question e = false) C ->
  is_question q = true ->
  pre ++ q :: post = B ++ C ->
  exists post', post = post' ++ C /\ pre ++ q :: post' = B.
Proof.
  intros HC Hq. revert pre.
  induction B as [|b B IH]; intros pre E; simpl in E.
  - exfalso. rewrite <- E in HC. apply Forall_app in HC as [_ HC].
    inversion HC as [|? ? Hq' _]; subst. congruence.
  - destruct pre as [|p pre]; simpl in E; injection E as E1 E2.
    + subst b. exists B. split; [exact E2|reflexivity].
    + subst p. destruct (IH pre E2) as (post' & -> & E'). exists post'.
      split; [reflexivity|]. simpl. rewrite E'. reflexivity.
Qed.

(** *** The loop *)

Lemma chatLoop_complete_prefix ls rest w :
  Forall (fun l => isExit l = false) ls ->
  all_complete agent (submitted w) ls = true ->
  chatLoop agent config (ls ++ rest) w =
  prepend (turns agent config (submitted w) ls)
          (chatLoop agent config rest (fold_left sent ls w)).
Proof.
  intros Hne. revert w.
  induction Hne as [|l ls Hl _ IH]; intros w Hc.
  - simpl. destruct (chatLoop agent config rest w); reflexivity.
  - simpl in Hc. apply andb_prop in Hc as [Hc Hcs].
    cbn [app fold_left turns]. rewrite (chatLoop_line _ _ _ Hl).
    rewrite (answer_complete _ Hc). cbn [fst snd].
    rewrite (IH (sent w l) Hcs), prepend_app. reflexivity.
Qed.

(** The loop only prompts, prints and calls the agent; it never ends the
    process itself and leaves the environment and the files alone. *)
Lemma chatLoop_events input w :
  Forall (fun e => loop_event e = true) (trace (chatLoop agent config input w))
  /\ (forall c, out (chatLoop agent config input w) <> Exit c)
  /\ env (after (chatLoop agent config input w)) = env w
  /\ files (after (chatLoop agent config input w)) = files w.
Proof.
  revert w. induction input as [|l rest IH]; intros w.
  - rewrite chatLoop_nil. simpl. repeat split; [repeat constructor|discriminate].
  - destruct (isExit l) eqn:Hl.
    + rewrite (chatLoop_exit _ _ _ Hl). simpl.
      repeat split; [repeat constructor|discriminate].
    + rewrite (chatLoop_line _ _ _ Hl).
      pose proof (logs_are loop_event _ true (fun _ => eq_refl)
                    (answer_logs (stream agent (submitted w) l))) as Hlogs.
      destruct (snd (answer (stream agent (submitted w) l))) as [e|].
      * cbn [prepend out after trace]. rewrite app_nil_r.
        repeat split; [|discriminate].
        repeat constructor. exact Hlogs.
      * destruct (IH (sent w l)) as (Ht & Ho & He & Hf).
        cbn [prepend out after trace]. repeat split; auto.
        repeat constructor. apply Forall_app. split; assumption.
Qed.

Lemma loop_event_not (p : event -> bool) (t : list event) :
  (forall e, loop_event e = true -> p e = false) ->
  Forall (fun e => loop_event e = true) t ->
  Forall (fun e => p e = false) t.
Proof. intros Hp H. eapply Forall_impl; [exact H|exact Hp]. Qed.

(** Whatever stands before a prompt of the loop is a sequence of complete
    turns, one for each line read so far. *)
Lemma chatLoop_prompts input w pre post :
  trace (chatLoop agent config input w) = pre ++ RlQuestion "> " :: post ->
  exists j, (j <= length input)%nat
    /\ Forall (fun l => isExit l = false) (take j input)
    /\ all_complete agent (submitted w) (take j input) = true
    /\ pre = turns agent config (submitted w) (take j input).
Proof.
  revert w pre. induction input as [|l rest IH]; intros w pre E.
  - rewrite chatLoop_nil in E. cbn [trace] in E.
    destruct pre as [|p [|p' pre]]; try discriminate E.
    exists 0%nat. repeat split; [lia|constructor].
  - destruct pre as [|p pre].
    { exists 0%nat. repeat split; [lia|constructor]. }
    destruct (isExit l) eqn:Hl.
    + rewrite (chatLoop_exit _ _ _ Hl) in E. cbn [trace] in E.
      destruct pre as [|p' [|p'' pre]]; discriminate E.
    + rewrite (chatLoop_line _ _ _ Hl) in E.
      cbn [prepend trace app] in E. injection E as <- E.
      change (?a :: ?l1 ++ ?l2) with ((a :: l1) ++ l2) in E. symmetry in E.
      apply question_after_quiet in E as (pre' & -> & E);
        [|constructor; [reflexivity|];
          exact (logs_are is_question _ false (fun _ => eq_refl)
                   (answer_logs _))
         |reflexivity].
      destruct (snd (answer (stream agent (submitted w) l))) as [e|] eqn:Hs.
      { destruct pre'; discriminate E. }
      apply answer_none in Hs as Hc. symmetry in E.
      apply IH in E as (j & Hj & Hne & Hall & ->).
      exists (S j). cbn [take turns all_complete length].
      rewrite Hc, (answer_complete _ Hc). cbn [fst].
      repeat split; [lia|constructor; assumption|exact Hall].
Qed.

(** The messages that reach the agent from the loop are input lines, in
    order and without gaps, none of them an exit command. *)
Lemma chatLoop_forwarded input w :
  exists k, (k <= length input)%nat
    /\ forwarded (trace (chatLoop agent config input w)) = take k input
    /\ Forall (fun l => isExit l = false) (take k input).
Proof.
  revert w. induction input as [|l rest IH]; intros w.
  - exists 0%nat. rewrite chatLoop_nil. repeat split; [lia|constructor].
  - destruct (isExit l) eqn:Hl.
    + exists 0%nat. rewrite (chatLoop_exit _ _ _ Hl).
      repeat split; [simpl; lia|constructor].
    + rewrite (chatLoop_line _ _ _ Hl).
      pose proof (forwarded_logs _ (answer_logs (stream agent (submitted w) l)))
        as Hlogs.
      destruct (snd (answer (stream agent (submitted w) l))) as [e|].
      * exists 1%nat. cbn [prepend trace]. rewrite forwarded_app.
        cbn [forwarded]. rewrite Hlogs. simpl.
        repeat split; [lia|constructor; [exact Hl|constructor]].
      * destruct (IH (sent w l)) as (k & Hk & Hf & Hne).
        exists (S k). cbn [prepend trace]. rewrite forwarded_app.
        cbn [forwarded]. rewrite Hlogs, Hf. simpl.
        repeat split; [lia|constructor; assumption].
Qed.

(** *** [runChatMode] as a whole *)

Lemma loop_body_events input w :
  let body :=
    match snd (answer (stream agent (submitted w) initialPrompt)) with
    | None => chatLoop agent config input (sent w initialPrompt)
    | Some e => mkRun (Throw e) (sent w initialPrompt) []
    end in
  Forall (fun e => loop_event e = true) (trace body)
  /\ (forall c, out body <> Exit c)
  /\ env (after body) = env w /\ files (after body) = files w.
Proof.
  destruct (snd (answer (stream agent (submitted w) initialPrompt))); simpl.
  - repeat split; [constructor|discriminate].
  - apply (chatLoop_events input (sent w initialPrompt)).
Qed.

Lemma opening_turn_events w :
  Forall (fun e => chat_event e && negb (is_close e)
                   && negb (is_exit e) && negb (is_question e) = true)
    (opening ++ AgentStream initialPrompt (thread_id config)
       :: fst (answer (stream agent (submitted w) initialPrompt))).
Proof.
  apply Forall_app. split; [repeat constructor|].
  constructor; [reflexivity|].
  eapply Forall_impl; [apply answer_logs|]. intros e [args ->]. reflexivity.
Qed.

(** The reader is closed once when [runChatMode] returns and not at all
    when it ends the process; those are its only ways out, the status of the
    latter is 1, and nothing but console, reader and agent is touched. *)
Lemma runChatMode_closes input w :
  let r := runChatMode agent config input w in
  count is_close (trace r) = match out r with Done _ => 1 | _ => 0 end%nat
  /\ count is_exit (trace r) = match out r with Exit _ => 1 | _ => 0 end%nat
  /\ (out r = Done tt \/ out r = Exit 1 \/ out r = Pending)
  /\ Forall (fun e => chat_event e = true) (trace r)
  /\ env (after r) = env w /\ files (after r) = files w.
Proof.
  cbv zeta. rewrite runChatMode_run.
  pose proof (loop_body_events input w) as (Ht & Ho & He & Hf).
  pose proof (opening_turn_events w) as Hopen.
  set (body := match snd (answer (stream agent (submitted w) initialPrompt))
               with
               | None => chatLoop agent config input (sent w initialPrompt)
               | Some e => mkRun (Throw e) (sent w initialPrompt) []
               end) in *.
  set (head := opening ++ _) in *.
  assert (count is_close head = 0%nat) as Hc0.
  { apply count_none. eapply Forall_impl; [exact Hopen|].
    intros e H. destruct e; simpl in H; try discriminate; reflexivity. }
  assert (count is_exit head = 0%nat) as Hx0.
  { apply count_none. eapply Forall_impl; [exact Hopen|].
    intros e H. destruct e; simpl in H; try discriminate; reflexivity. }
  assert (Forall (fun e => chat_event e = true) head) as Hchat.
  { eapply Forall_impl; [exact Hopen|].
    intros e H. destruct e; simpl in H; try discriminate; reflexivity. }
  assert (count is_close (trace body) = 0%nat) as Hc1.
  { apply count_none, (loop_event_not is_close _ (fun e => ltac:(destruct e; simpl; intros H; first [reflexivity|discriminate H])) Ht). }
  assert (count is_exit (trace body) = 0%nat) as Hx1.
  { apply count_none, (loop_event_not is_exit _ (fun e => ltac:(destruct e; simpl; intros H; first [reflexivity|discriminate H])) Ht). }
  assert (Forall (fun e => chat_event e = true) (trace body)) as Hchat1.
  { eapply Forall_impl; [exact Ht|].
    intros e H. destruct e; simpl in H; try discriminate; reflexivity. }
  unfold guarded. destruct body as [o w' t]. cbn [out after trace] in *.
  destruct o as [[]|e|c|]; cbn [prepend out after trace].
  - rewrite !count_app, Hc0, Hc1, Hx0, Hx1. repeat split; auto.
    apply Forall_app. split; [exact Hchat|].
    apply Forall_app. split; [exact Hchat1|repeat constructor].
  - rewrite !count_app, Hc0, Hc1, Hx0, Hx1.
    assert (Forall (fun e0 => chat_event e0 = true) (error_report e)
            /\ count is_close (error_report e) = 0%nat
            /\ count is_exit (error_report e) = 0%nat) as (H1 & H2 & H3).
    { unfold error_report. destruct (instanceofError e);
        repeat split; repeat constructor. }
    rewrite H2, H3. repeat split; auto.
    apply Forall_app. split; [exact Hchat|].
    apply Forall_app. split; [exact Hchat1|].
    apply Forall_app. split; [exact H1|repeat constructor].
  - destruct (Ho c eq_refl).
  - rewrite !count_app, Hc0, Hc1, Hx0, Hx1. repeat split; auto.
    apply Forall_app. split; assumption.
Qed.

End Chat.

(** ** [main] and the module body *)

Lemma bind_throw {A B} (m : M A) (f : A -> M B) w e w' t :
  m w = mkRun (Throw e) w' t -> bind m f w = mkRun (Throw e) w' t.
Proof. intros H. unfold bind. rewrite H. reflexivity. Qed.

Lemma tryCatch_pass {A} (m : M A) (h : thrown -> M A) w :
  (forall e, out (m w) <> Throw e) -> tryCatch m h w = m w.
Proof.
  intros H. unfold tryCatch. destruct (m w) as [o w' t].
  destruct o; try reflexivity. destruct (H e eq_refl).
Qed.

Lemma tryCatch_caught {A} (m : M A) (h : thrown -> M A) w e w' t :
  m w = mkRun (Throw e) w' t -> tryCatch m h w = prepend t (h e w').
Proof. intros H. unfold tryCatch. rewrite H. reflexivity. Qed.

Lemma out_prepend {A} t (r : run A) : out (prepend t r) = out r.
Proof. reflexivity. Qed.

Section Program.

Context {WalletData : Type} (JSON_stringify : WalletData -> string)
        (sdk : Sdk WalletData).

Lemma main_handler_run (e : thrown) w :
  ((if instanceofError e
    then console_error [Str "Detailed error:"; Val e] ;;
         console_error [Str "Error stack:"; Stack e]
    else ret tt) ;;
   process_exit (A:=unit) 1) w =
  mkRun (Exit 1) w (main_report e ++ [ProcessExit 1]).
Proof. unfold main_report. destruct e; reflexivity. Qed.

Lemma main_chat_run agent config input w :
  (console_log [Str "Agent initialized successfully."] ;;
   console_log [Str "Starting chat mode..."] ;;
   runChatMode agent config input) w =
  prepend handover (runChatMode agent config input w).
Proof.
  rewrite (bind_done _ _ w tt w
             [ConsoleLog [Str "Agent initialized successfully."]])
    by reflexivity.
  rewrite (bind_done _ _ w tt w [ConsoleLog [Str "Starting chat mode..."]])
    by reflexivity.
  rewrite prepend_app. reflexivity.
Qed.

Lemma main_run_done input w agent config w' t :
  initializeAgent JSON_stringify sdk w = mkRun (Done (agent, config)) w' t ->
  main JSON_stringify sdk input w =
  prepend ((ConsoleLog [Str "Initializing agent..."] :: t) ++ handover)
          (runChatMode agent config input w').
Proof.
  intros E. unfold main.
  rewrite tryCatch_pass.
  - rewrite (bind_done _ _ w tt w [ConsoleLog [Str "Initializing agent..."]])
      by reflexivity.
    rewrite (bind_done _ _ _ _ _ _ E).
    change (prepend [ConsoleLog [Str "Initializing agent..."]]
              (prepend t
                 ((console_log [Str "Agent initialized successfully."] ;;
                   console_log [Str "Starting chat mode..."] ;;
                   runChatMode agent config input) w')) = 
            prepend ((ConsoleLog [Str "Initializing agent..."] :: t) ++ handover)
              (runChatMode agent config input w')).
    rewrite main_chat_run, !prepend_app. reflexivity.
  - rewrite (bind_done _ _ w tt w [ConsoleLog [Str "Initializing agent..."]])
      by reflexivity.
    rewrite (bind_done _ _ _ _ _ _ E).
    change (forall e,
              out (prepend [ConsoleLog [Str "Initializing agent..."]]
                (prepend t
                   ((console_log [Str "Agent initialized successfully."] ;;
                     console_log [Str "Starting chat mode..."] ;;
                     runChatMode agent config input) w'))) <> Throw e).
    rewrite main_chat_run, !out_prepend.
    pose proof (runChatMode_closes agent config input w') as (_ & _ & Ho & _).
    intros e He. rewrite He in Ho. destruct Ho as [Ho|[Ho|Ho]]; discriminate Ho.
Qed.

Lemma main_run_throw input w e w' t :
  initializeAgent JSON_stringify sdk w = mkRun (Throw e) w' t ->
  main JSON_stringify sdk input w =
  mkRun (Exit 1) w'
    ((ConsoleLog [Str "Initializing agent..."] :: t)
       ++ main_report e ++ [ProcessExit 1]).
Proof.
  intros E. unfold main.
  rewrite (tryCatch_caught _ _ w e w'
             (ConsoleLog [Str "Initializing agent..."] :: t)).
  - rewrite main_handler_run. reflexivity.
  - rewrite (bind_done _ _ w tt w [ConsoleLog [Str "Initializing agent..."]])
      by reflexivity.
    rewrite (bind_throw _ _ _ _ _ _ E). reflexivity.
Qed.

(** The whole script, unfolded down to [initializeAgent] and [runChatMode]. *)
Lemma program_run input w :
  program JSON_stringify sdk input w =
  match missing (env w) with
  | [] =>
      let i := initializeAgent JSON_stringify sdk w in
      match out i with
      | Done ac =>
          prepend (preamble w ++ trace i ++ handover)
                  (runChatMode (fst ac) (snd ac) input (after i))
      | _ =>
          mkRun (Exit 1) (after i)
            (preamble w ++ trace i
               ++ match out i with
                  | Throw e => main_report e
                  | _ => []
                  end ++ [ProcessExit 1])
      end
  | _ => validateEnvironment w
  end.
Proof.
  unfold program, preamble. pose proof (validateEnvironment_run w) as Hv.
  destruct (missing (env w)) as [|v l].
  - rewrite (bind_done _ _ _ _ _ _ Hv).
    unfold console_log.
    rewrite (bind_done _ _ w tt w [ConsoleLog [Str "Starting chatbot..."]])
      by reflexivity.
    rewrite Hv. cbv zeta.
    pose proof (initializeAgent_summary JSON_stringify sdk w) as H.
    unfold holds in H. destruct H as (_ & _ & _ & _ & _ & H).
    destruct (initializeAgent JSON_stringify sdk w) as [o w' t] eqn:E.
    cbn [out after trace] in *.
    destruct o as [[agent config]|e|c|]; [| |destruct H|destruct H].
    + rewrite (main_run_done _ _ _ _ _ _ E), !prepend_app.
      cbn [fst snd]. rewrite <- !app_assoc. reflexivity.
    + rewrite (main_run_throw _ _ _ _ _ E). unfold prepend.
      cbn [out after trace]. rewrite <- !app_assoc. reflexivity.
  - rewrite (bind_exit _ _ _ _ _ _ Hv). symmetry. exact Hv.
Qed.

End Program.

Section ProgramProperties.

Context {WalletData : Type} (JSON_stringify : WalletData -> string)
        (sdk : Sdk WalletData).

Lemma wallet_accesses_app (t1 t2 : list event) :
  wallet_accesses (t1 ++ t2) = wallet_accesses t1 ++ wallet_accesses t2.
Proof. apply List.filter_app. Qed.


Lemma preamble_quiet w :
  missing (env w) = [] ->
  Forall (fun e => exists args, e = ConsoleLog args \/ e = ConsoleWarn args)
         (preamble w).
Proof.
  intros Hm. unfold preamble. rewrite validateEnvironment_run, Hm.
  cbn [trace]. destruct (truthy (env w !! "NETWORK_ID"));
    repeat constructor; eexists; eauto.
Qed.



Lemma program_trace input w :
  missing (env w) = [] ->
  trace (program JSON_stringify sdk input w) =
  preamble w ++ trace (initializeAgent JSON_stringify sdk w)
    ++ match out (initializeAgent JSON_stringify sdk w) with
       | Done ac =>
           handover
             ++ trace (runChatMode (fst ac) (snd ac) input
                         (after (initializeAgent JSON_stringify sdk w)))
       | Throw e => main_report e ++ [ProcessExit 1]
       | _ => [ProcessExit 1]
       end.
Proof.
  intros Hm. rewrite program_run, Hm. cbv zeta.
  destruct (out (initializeAgent JSON_stringify sdk w)); unfold prepend;
    cbn [trace]; rewrite <- ?app_assoc; reflexivity.
Qed.





(** C7.  With the snapshot file absent, or present but unreadable, the
    loading step returns without a value and throws nothing; the failed read
    is logged; the configuration carries no wallet data, and that is the
    configuration the wallet provider gets once the model client exists. *)
Theorem unreadable_snapshot_tolerated (w : world) :
  (files w !! WALLET_DATA_FILE = None
   \/ exists f, files w !! WALLET_DATA_FILE = Some f /\ readable f = false) ->
  out (readExistingWalletData w) = Done None
  /\ after (readExistingWalletData w) = w
  /\ ((exists f, files w !! WALLET_DATA_FILE = Some f) ->
      In (ConsoleError [Str "Error reading wallet data:";
                        Val (ErrorObj "EACCES: permission denied")])
         (trace (readExistingWalletData w)))
  /\ cdpWalletData (config_of w) = None
  /\ (forall c, In (ConfigureWithWallet c)
                   (trace (initializeAgent JSON_stringify sdk w)) ->
                cdpWalletData c = None)
  /\ (forall u, ChatOpenAI sdk model_id = Ok u ->
                In (ConfigureWithWallet (config_of w))
                   (trace (initializeAgent JSON_stringify sdk w))).
Proof.
  intros Hf.
  assert (snapshot_of w = None) as Hs.
  { unfold snapshot_of. destruct Hf as [-> | (f & -> & ->)]; reflexivity. }
  pose proof (initializeAgent_summary JSON_stringify sdk w) as H.
  unfold holds in H. destruct H as (_ & _ & _ & Hc & Hin & _).
  rewrite readExistingWalletData_run, Hs. cbn [out after trace].
  assert (cdpWalletData (config_of w) = None) as Hcfg
      by (unfold config_of; rewrite Hs; reflexivity).
  repeat split; try assumption.
  - intros [f' Hf']. destruct Hf as [Hf | (f & Hf & Hr)]; [congruence|].
    rewrite Hf, Hr. apply in_or_app. right. left. reflexivity.
  - intros c Hc'. rewrite (Hc c Hc'). exact Hcfg.
Qed.

(** The loading step never throws, whatever the state of the file. *)
Lemma readExistingWalletData_total (w : world) :
  out (readExistingWalletData w) = Done (snapshot_of w).
Proof. rewrite readExistingWalletData_run. reflexivity. Qed.

(** C8, as amended.  With the three required variables present and
    [NETWORK_ID] not set, [validateEnvironment] prints the warning and
    returns without ending the process, and the wallet provider is
    configured for [base-sepolia]: no other configuration appears in the
    run, and this one does once the model client exists. *)
Theorem network_defaults_to_base_sepolia (input : list string) (w : world) :
  missing (env w) = [] ->
  env w !! "NETWORK_ID" = None ->
  validateEnvironment w = mkRun (Done tt) w [env_warning]
  /\ In env_warning (trace (program JSON_stringify sdk input w))
  /\ networkId (config_of w) = "base-sepolia"
  /\ (forall c, In (ConfigureWithWallet c)
                   (trace (program JSON_stringify sdk input w)) ->
                networkId c = "base-sepolia")
  /\ (forall u, ChatOpenAI sdk model_id = Ok u ->
                In (ConfigureWithWallet (config_of w))
                   (trace (program JSON_stringify sdk input w))).
Proof.
  intros Hm Hn.
  assert (validateEnvironment w = mkRun (Done tt) w [env_warning]) as Hv.
  { rewrite validateEnvironment_run, Hm, Hn. reflexivity. }
  assert (networkId (config_of w) = "base-sepolia") as Hnet.
  { unfold config_of. rewrite Hn. reflexivity. }
  pose proof (initializeAgent_summary JSON_stringify sdk w) as H.
  unfold holds in H. destruct H as (_ & _ & Hev & Hc & Hin & Hout).
  pose proof (program_trace input w Hm) as Ht.
  split; [exact Hv|]. split; [|split; [exact Hnet|split]].
  - rewrite Ht. unfold preamble. rewrite Hv. left. reflexivity.
  - intros c Hc'. rewrite Ht in Hc'.
    apply in_app_or in Hc' as [Hc'|Hc'];
      [|apply in_app_or in Hc' as [Hc'|Hc']].
    + exfalso. pose proof (preamble_quiet w Hm) as Hq.
      rewrite Forall_forall in Hq. apply list_elem_of_In in Hc'.
      destruct (Hq _ Hc') as [args [E|E]]; discriminate E.
    + rewrite (Hc c Hc'). exact Hnet.
    + exfalso.
      destruct (out (initializeAgent JSON_stringify sdk w)) as [ac|e|x|].
      * apply in_app_or in Hc' as [Hc'|Hc'].
        { unfold handover in Hc'. in_cases Hc'. }
        pose proof (runChatMode_closes (fst ac) (snd ac) input
                      (after (initializeAgent JSON_stringify sdk w)))
          as (_ & _ & _ & Hchat & _).
        rewrite Forall_forall in Hchat.
        apply list_elem_of_In in Hc'. specialize (Hchat _ Hc').
        discriminate Hchat.
      * apply in_app_or in Hc' as [Hc'|Hc'].
        { unfold main_report in Hc'. destruct (instanceofError e);
            in_cases Hc'. }
        in_cases Hc'.
      * in_cases Hc'.
      * in_cases Hc'.
  - intros u Hu. rewrite Ht. apply in_or_app. right. apply in_or_app. left.
    exact (Hin u Hu).
Qed.

End ProgramProperties.

(** ** The exit command *)

Ltac ascii_cases c :=
  destruct c as [[] [] [] [] [] [] [] []]; vm_compute;
  intros H; first [discriminate H | auto].

Lemma lower_e c : lower_ascii c = "e"%char -> c = "e"%char \/ c = "E"%char.
Proof. ascii_cases c. Qed.

Lemma lower_x c : lower_ascii c = "x"%char -> c = "x"%char \/ c = "X"%char.
Proof. ascii_cases c. Qed.

Lemma lower_i c : lower_ascii c = "i"%char -> c = "i"%char \/ c = "I"%char.
Proof. ascii_cases c. Qed.

Lemma lower_t c : lower_ascii c = "t"%char -> c = "t"%char \/ c = "T"%char.
Proof. ascii_cases c. Qed.

(** The test of the loop accepts exactly the spellings of [exit] in any
    letter case. *)
Lemma isExit_spellings (l : string) :
  isExit l = true <-> In l exit_spellings.
Proof.
  split.
  - unfold isExit. intros H. apply String.eqb_eq in H.
    destruct l as [|a [|b [|c [|d [|x l]]]]]; try discriminate H.
    simpl in H. injection H as Ha Hb Hc Hd.
    apply lower_e in Ha. apply lower_x in Hb.
    apply lower_i in Hc. apply lower_t in Hd.
    destruct Ha as [-> | ->], Hb as [-> | ->], Hc as [-> | ->],
             Hd as [-> | ->]; simpl; auto 20.
  - intros H. unfold exit_spellings in H.
    repeat (destruct H as [<- | H]; [reflexivity|]). destruct H.
Qed.

Lemma isExit_false (l : string) :
  isExit l = false <-> toLowerCase l <> "exit".
Proof. unfold isExit. apply String.eqb_neq. Qed.

(** ** Whole chat sessions *)

Section Sessions.

Variables (agent : Agent) (config : AgentConfig).

Lemma submitted_fold ls w :
  submitted (fold_left sent ls w) = submitted w ++ ls.
Proof.
  revert w. induction ls as [|l ls IH]; intros w; simpl.
  - rewrite app_nil_r. reflexivity.
  - rewrite IH. simpl. rewrite <- app_assoc. reflexivity.
Qed.

Lemma turn_events history text :
  Forall (fun e => loop_event e = true) (turn agent config history text)
  /\ forwarded (turn agent config history text) = [text].
Proof.
  unfold turn. split.
  - constructor; [reflexivity|].
    induction (chunks_of (stream agent history text)) as [|c cs IH];
      simpl; [constructor|].
    apply Forall_app. split; [|exact IH].
    exact (logs_are loop_event _ true (fun _ => eq_refl) (printed_logs c)).
  - simpl. f_equal. apply forwarded_logs.
    induction (chunks_of (stream agent history text)) as [|c cs IH];
      simpl; [constructor|].
    apply Forall_app. split; [apply printed_logs|exact IH].
Qed.

Lemma turns_events history ls :
  Forall (fun e => loop_event e = true) (turns agent config history ls)
  /\ forwarded (turns agent config history ls) = ls.
Proof.
  revert history. induction ls as [|l ls IH]; intros history; cbn [turns].
  - split; [constructor|reflexivity].
  - destruct (IH (history ++ [l])) as [H1 H2].
    destruct (turn_events history l) as [H3 H4].
    rewrite <- app_comm_cons. split.
    + constructor; [reflexivity|]. apply Forall_app. split; assumption.
    + cbn [forwarded]. rewrite forwarded_app, H4, H2. reflexivity.
Qed.

Lemma turns_questions history ls :
  count is_question (turns agent config history ls) = length ls.
Proof.
  revert history. induction ls as [|l ls IH]; intros history; cbn [turns].
  - reflexivity.
  - rewrite count_app, IH. unfold turn.
    assert (count is_question
              (flat_map printed (chunks_of (stream agent history l))) = 0%nat)
      as Hz.
    { apply count_none.
      induction (chunks_of (stream agent history l)) as [|c cs IHc];
        simpl; [constructor|].
      apply Forall_app. split; [|exact IHc].
      exact (logs_are is_question _ false (fun _ => eq_refl) (printed_logs c)). }
    unfold count in *. simpl. rewrite Hz. reflexivity.
Qed.

Lemma chatLoop_head input w :
  exists post, trace (chatLoop agent config input w) = RlQuestion "> " :: post.
Proof.
  destruct input as [|l rest].
  - rewrite chatLoop_nil. eauto.
  - destruct (isExit l) eqn:Hl.
    + rewrite (chatLoop_exit _ _ _ _ _ Hl). eauto.
    + rewrite (chatLoop_line _ _ _ _ _ Hl). eauto.
Qed.

Lemma chatLoop_line_head l rest w :
  isExit l = false ->
  exists post,
    trace (chatLoop agent config (l :: rest) w)
    = RlQuestion "> " :: AgentStream l (thread_id config) :: post.
Proof. intros Hl. rewrite (chatLoop_line _ _ _ _ _ Hl). eauto. Qed.

Lemma guarded_trace r :
  exists extra,
    trace (guarded r) = trace r ++ extra
    /\ Forall (fun e => is_question e = false) extra
    /\ forwarded extra = [].
Proof.
  unfold guarded. destruct r as [o w t]. destruct o as [a|e|c|]; simpl.
  - exists [RlClose]. repeat constructor.
  - exists (error_report e ++ [ProcessExit 1]). split; [reflexivity|].
    unfold error_report. destruct (instanceofError e); repeat constructor.
  - exists []. rewrite app_nil_r. repeat constructor.
  - exists []. rewrite app_nil_r. repeat constructor.
Qed.

Lemma opening_quiet :
  Forall (fun e => is_question e = false) opening /\ forwarded opening = [].
Proof. split; [repeat constructor|reflexivity]. Qed.

(** A session whose first [ls] lines are ordinary and fully answered: its
    trace up to the prompt that follows them, and what remains to run. *)
Lemma runChatMode_complete_prefix ls rest w :
  Forall (fun l => isExit l = false) ls ->
  all_complete agent (submitted w) (initialPrompt :: ls) = true ->
  runChatMode agent config (ls ++ rest) w =
  prepend (opening ++ turn agent config (submitted w) initialPrompt
             ++ turns agent config (submitted w ++ [initialPrompt]) ls)
    (guarded (chatLoop agent config rest
                (fold_left sent (initialPrompt :: ls) w))).
Proof.
  intros Hne Hc. cbn [all_complete] in Hc. apply andb_prop in Hc as [Hc0 Hc].
  rewrite runChatMode_run, (answer_complete _ Hc0). cbn [fst snd].
  rewrite (chatLoop_complete_prefix _ _ ls rest (sent w initialPrompt) Hne Hc).
  rewrite guarded_prepend, prepend_app. unfold turn.
  cbn [fold_left sent submitted]. rewrite <- app_assoc. reflexivity.
Qed.

End Sessions.

(** ** Printing a chunk *)

(** What the body of both [for await] loops does with a chunk whose
    selected entry has a first message. *)
Lemma printChunk_cases (chunk : Chunk) (w : world) :
  (forall u m ms,
     chunk !! "agent" = Some u -> messages u = m :: ms ->
     printChunk chunk w =
     mkRun (Done tt) w
       [ConsoleLog [Str (content m)]; ConsoleLog [Str separator]])
  /\ (forall u m ms,
        chunk !! "agent" = None -> chunk !! "tools" = Some u ->
        messages u = m :: ms ->
        printChunk chunk w =
        mkRun (Done tt) w
          [ConsoleLog [Str (content m)]; ConsoleLog [Str separator]])
  /\ (chunk !! "agent" = None -> chunk !! "tools" = None ->
      printChunk chunk w = mkRun (Done tt) w [ConsoleLog [Str separator]]).
Proof.
  rewrite printChunk_run. unfold printable, printed.
  split; [|split].
  - intros u m ms -> ->. reflexivity.
  - intros u m ms -> -> ->. reflexivity.
  - intros -> ->. reflexivity.
Qed.

(** Every chunk of a stream is printed that way, in order, for as long as
    the chunks have a first message to print. *)
Lemma forAwait_prints_every_chunk (chunks : list Chunk) (w : world) :
  forallb printable chunks = true ->
  forAwait chunks None printChunk w =
  mkRun (Done tt) w (flat_map printed chunks).
Proof.
  intros H. rewrite forAwait_run, (drain_complete _ H). reflexivity.
Qed.

(** A tagged entry without messages is the one case with no separator:
    reading [content] of the missing first message throws. *)
Lemma printChunk_without_message (chunk : Chunk) (w : world) :
  printable chunk = false ->
  printChunk chunk w = mkRun (Throw type_error) w [].
Proof. intros H. rewrite printChunk_run, H. reflexivity. Qed.

(** ** Every chunk of every stream *)

(** A marked event found in [A ++ B], where [A] holds none, lies in [B]. *)
Lemma marker_after_quiet (p : event -> bool) (A B pre post : list event) x :
  Forall (fun e => p e = false) A ->
  p x = true ->
  pre ++ x :: post = A ++ B ->
  exists pre', pre = A ++ pre' /\ pre' ++ x :: post = B.
Proof.
  intros HA Hx. revert pre.
  induction HA as [|a A Ha _ IH]; intros pre E; simpl in E.
  - exists pre. split; [reflexivity|exact E].
  - destruct pre as [|b pre]; simpl in E; injection E as E1 E2.
    + subst a. congruence.
    + subst b. destruct (IH pre E2) as (pre' & -> & E'). exists pre'.
      split; [reflexivity|exact E'].
Qed.

(** A marked event found in [B ++ C], where [C] holds none, lies in [B]. *)
Lemma marker_before_quiet (p : event -> bool) (B C pre post : list event) x :
  Forall (fun e => p e = false) C ->
  p x = true ->
  pre ++ x :: post = B ++ C ->
  exists post', post = post' ++ C /\ pre ++ x :: post' = B.
Proof.
  intros HC Hx. revert pre.
  induction B as [|b B IH]; intros pre E; simpl in E.
  - exfalso. rewrite <- E in HC. apply Forall_app in HC as [_ HC].
    inversion HC as [|? ? Hx' _]; subst. congruence.
  - destruct pre as [|a pre]; simpl in E; injection E as E1 E2.
    + subst b. exists B. split; [exact E2|reflexivity].
    + subst a. destruct (IH pre E2) as (post' & -> & E'). exists post'.
      split; [reflexivity|]. simpl. rewrite E'. reflexivity.
Qed.

Lemma answer_no_stream r :
  Forall (fun e => is_stream e = false) (fst (answer r)).
Proof. exact (logs_are is_stream _ false (fun _ => eq_refl) (answer_logs r)). Qed.

Lemma drain_at before c later fin :
  forallb printable before = true ->
  drain (before ++ c :: later) fin =
  if printable c
  then (flat_map printed before ++ printed c ++ fst (drain later fin),
        snd (drain later fin))
  else (flat_map printed before, Some type_error).
Proof.
  intros H. induction before as [|x rest IH]; simpl.
  - destruct (printable c); reflexivity.
  - simpl in H. apply andb_prop in H as [Hx Hr].
    rewrite Hx, (IH Hr). destruct (printable c); cbn [fst snd];
      rewrite <- ?app_assoc; reflexivity.
Qed.

Section StreamCalls.

Variables (agent : Agent) (config : AgentConfig).

(** Behind every call to the agent made by the loop stands what draining
    its answer prints; then the next prompt, or the end of the loop with the
    error that stopped the draining. *)
Lemma chatLoop_stream_call input w pre text tid post :
  trace (chatLoop agent config input w) = pre ++ AgentStream text tid :: post ->
  exists rest,
    post = fst (answer (stream agent (submitted w ++ forwarded pre) text))
             ++ rest
    /\ match snd (answer (stream agent (submitted w ++ forwarded pre) text))
       with
       | Some e => rest = [] /\ out (chatLoop agent config input w) = Throw e
       | None => exists rest', rest = RlQuestion "> " :: rest'
       end.
Proof.
  revert w pre. induction input as [|l input IH]; intros w pre E.
  - rewrite chatLoop_nil in E. cbn [trace] in E.
    destruct pre as [|p [|p' pre]]; discriminate E.
  - destruct (isExit l) eqn:Hl.
    + rewrite (chatLoop_exit _ _ _ _ _ Hl) in E. cbn [trace] in E.
      destruct pre as [|p [|p' [|p'' pre]]]; discriminate E.
    + rewrite (chatLoop_line _ _ _ _ _ Hl) in *.
      unfold prepend in *. cbn [trace out] in *.
      destruct pre as [|p [|p' pre]]; [discriminate E| |].
      * cbn [app] in E. injection E as <- <- <- <-.
        cbn [forwarded]. rewrite app_nil_r.
        eexists. split; [reflexivity|].
        destruct (snd (answer (stream agent (submitted w) l))) as [e|].
        -- cbn [trace out]. auto.
        -- destruct (chatLoop_head agent config input (sent w l)) as (q & ->).
           eauto.
      * cbn [app] in E. injection E as <- <- E. symmetry in E.
        apply (marker_after_quiet is_stream) in E as (pre' & -> & E);
          [|apply answer_no_stream|reflexivity].
        destruct (snd (answer (stream agent (submitted w) l))) as [e|] eqn:Hs.
        { destruct pre'; discriminate E. }
        destruct (IH (sent w l) pre' (eq_sym E)) as (rest & Hp & Hr).
        cbn [forwarded]. rewrite forwarded_app.
        rewrite (forwarded_logs _ (answer_logs _)). cbn [app].
        cbn [sent submitted] in Hp, Hr. rewrite <- app_assoc in Hp, Hr.
        cbn [app] in Hp, Hr.
        exists rest. split; [exact Hp|exact Hr].
Qed.

Lemma runChatMode_stream_call input w pre text tid post :
  trace (runChatMode agent config input w)
    = pre ++ AgentStream text tid :: post ->
  exists rest,
    post = fst (answer (stream agent (submitted w ++ forwarded pre) text))
             ++ rest
    /\ match snd (answer (stream agent (submitted w ++ forwarded pre) text))
       with
       | Some e =>
           rest = error_report e ++ [ProcessExit 1]
           /\ out (runChatMode agent config input w) = Exit 1
       | None => exists rest', rest = RlQuestion "> " :: rest'
       end.
Proof.
  rewrite runChatMode_run. unfold prepend. cbn [trace out].
  rewrite <- app_assoc. intros E. symmetry in E.
  apply (marker_after_quiet is_stream) in E as (pre' & -> & E);
    [|repeat constructor|reflexivity].
  rewrite forwarded_app, (proj2 opening_quiet). cbn [app].
  destruct pre' as [|p pre'].
  - cbn [app] in E. injection E as -> -> ->.
    cbn [forwarded]. rewrite app_nil_r.
    eexists. split; [reflexivity|].
    destruct (snd (answer (stream agent (submitted w) initialPrompt))) as [e|].
    + unfold guarded. cbn [out trace app]. auto.
    + destruct (guarded_trace
                  (chatLoop agent config input (sent w initialPrompt)))
        as (extra & -> & _).
      destruct (chatLoop_head agent config input (sent w initialPrompt))
        as (q & ->).
      cbn [app]. eauto.
  - cbn [app] in E. injection E as -> E.
    apply (marker_after_quiet is_stream) in E as (pre'' & -> & E);
      [|apply answer_no_stream|reflexivity].
    cbn [forwarded]. rewrite forwarded_app.
    rewrite (forwarded_logs _ (answer_logs _)). cbn [app].
    destruct (snd (answer (stream agent (submitted w) initialPrompt)))
      as [e0|] eqn:Hs.
    { exfalso. unfold guarded in E. cbn [out trace app] in E.
      rewrite <- (app_nil_r (error_report e0 ++ [ProcessExit 1])) in E.
      apply (marker_after_quiet is_stream) in E as (q & _ & E);
        [destruct q; discriminate E| |reflexivity].
      unfold error_report. destruct (instanceofError e0); repeat constructor. }
    pose proof (chatLoop_stream_call input (sent w initialPrompt) pre'' text
                  tid) as Hloop.
    cbn [sent submitted] in Hloop. rewrite <- app_assoc in Hloop.
    cbn [app] in Hloop. fold (sent w initialPrompt) in Hloop.
    pose proof (chatLoop_events agent config input (sent w initialPrompt))
      as (_ & Hx & _).
    unfold guarded in *.
    destruct (chatLoop agent config input (sent w initialPrompt))
      as [o wb tb].
    cbn [out trace after] in *.
    destruct o as [[]|e|c|]; cbn [trace out] in E |- *.
    + apply (marker_before_quiet is_stream) in E as (post' & -> & E);
        [|repeat constructor|reflexivity].
      destruct (Hloop post' (eq_sym E)) as (rest & -> & Hr).
      destruct (snd (answer (stream agent
                  (submitted w ++ initialPrompt :: forwarded pre'') text)))
        as [e|].
      * destruct Hr as [_ Hr]. discriminate Hr.
      * destruct Hr as [rest' ->]. eexists. rewrite <- app_assoc.
        split; [reflexivity|]. cbn [app]. eauto.
    + apply (marker_before_quiet is_stream) in E as (post' & -> & E).
      2: { unfold error_report. destruct (instanceofError e);
           repeat constructor. }
      2: reflexivity.
      destruct (Hloop post' (eq_sym E)) as (rest & -> & Hr).
      destruct (snd (answer (stream agent
                  (submitted w ++ initialPrompt :: forwarded pre'') text)))
        as [e'|].
      * destruct Hr as [-> Hr]. injection Hr as ->.
        eexists. rewrite <- app_assoc. split; [reflexivity|].
        cbn [app]. auto.
      * destruct Hr as [rest' ->]. eexists. rewrite <- app_assoc.
        split; [reflexivity|]. cbn [app]. eauto.
    + destruct (Hx c eq_refl).
    + destruct (Hloop post (eq_sym E)) as (rest & -> & Hr).
      destruct (snd (answer (stream agent
                  (submitted w ++ initialPrompt :: forwarded pre'') text)))
        as [e|].
      * destruct Hr as [_ Hr]. discriminate Hr.
      * destruct Hr as [rest' ->]. eexists. split; [reflexivity|]. eauto.
Qed.

(** C5, as amended.  Take any call to the agent in a run of [runChatMode],
    the scripted prompt's or a user line's, and any chunk [c] of the stream
    it hands back, the chunks before [c] having had a first message to
    print.  Right behind what those chunks printed stands what [c] prints:
    with an [agent] entry, the content of that entry's first message;
    without one but with a [tools] entry, the content of that entry's first
    message; then the separator line, which is all there is for a chunk
    with neither entry.  The one exception is a chunk whose selected entry
    ([agent] if present, else [tools]) has no message: nothing is printed
    for it, not even the separator, whatever its other entry holds; the
    [TypeError] is reported and the process ends with status 1. *)
Theorem stream_chunks_printed_by_tag
        (input : list string) (w : world) (pre post : list event)
        (text tid : string) (before : list Chunk) (c : Chunk)
        (later : list Chunk) (fin : option thrown) :
  trace (runChatMode agent config input w)
    = pre ++ AgentStream text tid :: post ->
  stream agent (submitted w ++ forwarded pre) text
    = Yields (before ++ c :: later) fin ->
  forallb printable before = true ->
  exists rest,
    post = flat_map printed before ++ rest
    /\ (forall u m ms,
          c !! "agent" = Some u -> messages u = m :: ms ->
          exists rest',
            rest = ConsoleLog [Str (content m)]
                   :: ConsoleLog [Str "-------------------"] :: rest')
    /\ (forall u m ms,
          c !! "agent" = None -> c !! "tools" = Some u ->
          messages u = m :: ms ->
          exists rest',
            rest = ConsoleLog [Str (content m)]
                   :: ConsoleLog [Str "-------------------"] :: rest')
    /\ (c !! "agent" = None -> c !! "tools" = None ->
        exists rest', rest = ConsoleLog [Str "-------------------"] :: rest')
    /\ (printable c = false ->
        rest = [ConsoleError
                  [Str "Error:";
                   Str "Cannot read properties of undefined (reading 'content')"];
                ProcessExit 1]
        /\ out (runChatMode agent config input w) = Exit 1).
Proof.
  intros E Hs Hp.
  destruct (runChatMode_stream_call input w pre text tid post E)
    as (rest & -> & Hr).
  rewrite Hs in *. cbn [answer] in *. rewrite (drain_at _ _ _ _ Hp) in *.
  unfold printable, printed in *.
  destruct (c !! "agent") as [u|];
    [destruct (messages u) as [|m ms] eqn:Hm
    |destruct (c !! "tools") as [u|];
     [destruct (messages u) as [|m ms] eqn:Hm|]];
    cbn [fst snd] in *.
  all: eexists; split; [rewrite <- ?app_assoc; reflexivity|].
  all: repeat split; try discriminate; try congruence.
  all: try (intros; destruct Hr as [-> Hr]; cbn [error_report instanceofError
              type_error message app]; auto; fail).
  all: try (intros u0 m0 ms0 Hu Hm0; try injection Hu as <-;
            rewrite Hm in Hm0; injection Hm0 as <- <-;
            cbn [app]; eauto; fail).
  all: try (intros ? ? ? ? Hu Hm0; injection Hu as <-;
            rewrite Hm in Hm0; injection Hm0 as <- <-;
            cbn [app]; eauto; fail).
  all: try (intros; cbn [app]; eauto; fail).
Qed.

End StreamCalls.

Section SessionProperties.

Variables (agent : Agent) (config : AgentConfig).

Lemma all_complete_app history ls ms :
  all_complete agent history (ls ++ ms) =
  all_complete agent history ls && all_complete agent (history ++ ls) ms.
Proof.
  revert history. induction ls as [|l ls IH]; intros history; cbn [app all_complete].
  - rewrite app_nil_r. reflexivity.
  - rewrite IH, <- app_assoc, andb_assoc. reflexivity.
Qed.

Lemma next_prompt_after_turns ls rest w :
  Forall (fun l => isExit l = false) ls ->
  all_complete agent (submitted w) (initialPrompt :: ls) = true ->
  exists post,
    trace (runChatMode agent config (ls ++ rest) w)
    = opening ++ turn agent config (submitted w) initialPrompt
        ++ turns agent config (submitted w ++ [initialPrompt]) ls
        ++ RlQuestion "> " :: post.
Proof.
  intros Hne Hc.
  rewrite (runChatMode_complete_prefix _ _ _ _ _ Hne Hc).
  destruct (guarded_trace
              (chatLoop agent config rest
                 (fold_left sent (initialPrompt :: ls) w)))
    as (extra & Hg & _).
  destruct (chatLoop_head agent config rest
              (fold_left sent (initialPrompt :: ls) w)) as (post & Hp).
  unfold prepend. cbn [trace]. rewrite Hg, Hp.
  exists (post ++ extra). rewrite <- !app_assoc. reflexivity.
Qed.

(** C9.  In every run of [runChatMode] the scripted prompt is the first
    message sent to the agent, and the messages sent after it are input
    lines, one per line, in order.  Whatever precedes a user prompt in the
    trace is exactly: the opening, the complete turn of the scripted prompt,
    and one complete turn for each line read so far; every one of those
    responses was delivered and printed to its last chunk.  And after a
    prefix of ordinary lines with complete responses the next prompt does
    appear, right behind their turns. *)
Theorem chat_turns_in_order (input : list string) (w : world) :
  let r := runChatMode agent config input w in
  (exists t,
     trace r = opening ++ AgentStream initialPrompt (thread_id config) :: t)
  /\ (exists k, (k <= length input)%nat
        /\ forwarded (trace r) = initialPrompt :: take k input
        /\ Forall (fun l => isExit l = false) (take k input))
  /\ (forall pre post,
        trace r = pre ++ RlQuestion "> " :: post ->
        exists j, (j <= length input)%nat
          /\ Forall (fun l => isExit l = false) (take j input)
          /\ all_complete agent (submitted w) (initialPrompt :: take j input)
             = true
          /\ pre = opening ++ turn agent config (submitted w) initialPrompt
                     ++ turns agent config (submitted w ++ [initialPrompt])
                          (take j input))
  /\ (forall ls rest,
        input = ls ++ rest ->
        Forall (fun l => isExit l = false) ls ->
        all_complete agent (submitted w) (initialPrompt :: ls) = true ->
        exists post,
          trace r = opening ++ turn agent config (submitted w) initialPrompt
                      ++ turns agent config (submitted w ++ [initialPrompt]) ls
                      ++ RlQuestion "> " :: post).
Proof.
  cbv zeta. split; [|split; [|split]].
  - rewrite runChatMode_run. unfold prepend. cbn [trace].
    rewrite <- app_assoc. eauto.
  - rewrite runChatMode_run. unfold prepend. cbn [trace].
    destruct (guarded_trace
                match snd (answer (stream agent (submitted w) initialPrompt))
                with
                | None => chatLoop agent config input (sent w initialPrompt)
                | Some e => mkRun (Throw e) (sent w initialPrompt) []
                end) as (extra & -> & _ & Hx).
    rewrite !forwarded_app, Hx, app_nil_r.
    rewrite (proj2 opening_quiet). cbn [app forwarded].
    rewrite (forwarded_logs _ (answer_logs _)). cbn [app].
    destruct (snd (answer (stream agent (submitted w) initialPrompt))).
    + exists 0%nat. repeat split; [lia|constructor].
    + destruct (chatLoop_forwarded agent config input (sent w initialPrompt))
        as (k & Hk & -> & Hne).
      exists k. repeat split; assumption.
  - intros pre post E. rewrite runChatMode_run in E.
    unfold prepend in E. cbn [trace] in E. symmetry in E.
    apply question_after_quiet in E as (pre' & -> & E); [| |reflexivity].
    2: { apply Forall_app. split; [exact (proj1 opening_quiet)|].
         constructor; [reflexivity|].
         exact (logs_are is_question _ false (fun _ => eq_refl)
                  (answer_logs _)). }
    destruct (guarded_trace
                match snd (answer (stream agent (submitted w) initialPrompt))
                with
                | None => chatLoop agent config input (sent w initialPrompt)
                | Some e => mkRun (Throw e) (sent w initialPrompt) []
                end) as (extra & Hg & Hq & _).
    rewrite Hg in E.
    apply question_before_quiet in E as (post' & _ & E);
      [|exact Hq|reflexivity].
    destruct (snd (answer (stream agent (submitted w) initialPrompt)))
      as [e|] eqn:Hs.
    { destruct pre'; discriminate E. }
    apply answer_none in Hs as Hc. symmetry in E.
    apply chatLoop_prompts in E as (j & Hj & Hne & Hall & ->).
    exists j. cbn [all_complete]. rewrite Hc.
    repeat split; [assumption|assumption|exact Hall|].
    rewrite (answer_complete _ Hc). cbn [fst]. unfold turn.
    rewrite <- !app_assoc. reflexivity.
  - intros ls rest -> Hne Hc. exact (next_prompt_after_turns ls rest w Hne Hc).
Qed.

(** C10.  A line that does not lowercase to exactly [exit] is never taken
    for the exit command: once the lines before it have been answered, the
    prompt that reads it is followed at once by the call that hands it to
    the agent, unchanged, and when its response is complete the loop prompts
    again. *)
Theorem non_exit_line_forwarded (ls : list string) (l : string)
        (rest : list string) (w : world) :
  Forall (fun x => isExit x = false) ls ->
  all_complete agent (submitted w) (initialPrompt :: ls) = true ->
  toLowerCase l <> "exit" ->
  let r := runChatMode agent config (ls ++ l :: rest) w in
  (exists post,
     trace r = opening ++ turn agent config (submitted w) initialPrompt
                 ++ turns agent config (submitted w ++ [initialPrompt]) ls
                 ++ RlQuestion "> " :: AgentStream l (thread_id config) :: post)
  /\ forwarded (trace r) <> initialPrompt :: ls
  /\ (complete (stream agent (submitted w ++ initialPrompt :: ls) l) = true ->
      exists post,
        trace r = opening ++ turn agent config (submitted w) initialPrompt
                    ++ turns agent config (submitted w ++ [initialPrompt])
                         (ls ++ [l])
                    ++ RlQuestion "> " :: post).
Proof.
  intros Hne Hc Hl. apply isExit_false in Hl. cbv zeta.
  assert (exists post,
     trace (runChatMode agent config (ls ++ l :: rest) w)
     = opening ++ turn agent config (submitted w) initialPrompt
         ++ turns agent config (submitted w ++ [initialPrompt]) ls
         ++ RlQuestion "> " :: AgentStream l (thread_id config) :: post)
    as (post & Hpost).
  { rewrite (runChatMode_complete_prefix _ _ _ _ _ Hne Hc).
    destruct (guarded_trace
                (chatLoop agent config (l :: rest)
                   (fold_left sent (initialPrompt :: ls) w)))
      as (extra & Hg & _).
    destruct (chatLoop_line_head agent config l rest
                (fold_left sent (initialPrompt :: ls) w) Hl) as (post & Hp).
    unfold prepend. cbn [trace]. rewrite Hg, Hp.
    exists (post ++ extra). rewrite <- !app_assoc. reflexivity. }
  split; [eauto|split].
  - rewrite Hpost, !forwarded_app.
    rewrite (proj2 opening_quiet), (proj2 (turn_events _ _ _ _)),
      (proj2 (turns_events _ _ _ _)).
    cbn [app forwarded]. intros E. injection E as E.
    apply (f_equal (@length string)) in E.
    rewrite length_app in E. simpl in E. lia.
  - intros Hcl.
    replace (ls ++ l :: rest) with ((ls ++ [l]) ++ rest)
      by (rewrite <- app_assoc; reflexivity).
    apply next_prompt_after_turns.
    + apply Forall_app. split; [exact Hne|constructor; [exact Hl|constructor]].
    + cbn [all_complete] in Hc |- *. apply andb_prop in Hc as [Hc0 Hc].
      rewrite Hc0, all_complete_app, Hc. cbn [all_complete andb].
      rewrite <- app_assoc. cbn [app]. rewrite Hcl. reflexivity.
Qed.

End SessionProperties.

(** ** The exit command, over a whole run of the script *)

Section ExitCommand.

Context {WalletData : Type} (JSON_stringify : WalletData -> string)
        (sdk : Sdk WalletData).

Lemma program_run_done input w agent config w' t :
  missing (env w) = [] ->
  initializeAgent JSON_stringify sdk w = mkRun (Done (agent, config)) w' t ->
  program JSON_stringify sdk input w =
  prepend (preamble w ++ t ++ handover) (runChatMode agent config input w').
Proof.
  intros Hm E. rewrite program_run, Hm. cbv zeta. rewrite E. reflexivity.
Qed.

Lemma forwarded_none (t : list event) :
  Forall (fun e => forwarded [e] = []) t -> forwarded t = [].
Proof.
  induction 1 as [|e t He _ IH]; [reflexivity|].
  change (e :: t) with ([e] ++ t). rewrite forwarded_app, He, IH. reflexivity.
Qed.

Lemma startup_quiet w t :
  missing (env w) = [] ->
  Forall (fun e => init_event e = true) t ->
  count is_close (preamble w ++ t ++ handover) = 0%nat
  /\ count is_exit (preamble w ++ t ++ handover) = 0%nat
  /\ forwarded (preamble w ++ t ++ handover) = [].
Proof.
  intros Hm Ht. pose proof (preamble_quiet w Hm) as Hp.
  assert (forall p : event -> bool,
            (forall args, p (ConsoleLog args) = false) ->
            (forall args, p (ConsoleWarn args) = false) ->
            (forall e, init_event e = true -> p e = false) ->
            count p (preamble w ++ t ++ handover) = 0%nat) as Hcount.
  { intros p H1 H2 H3. apply count_none.
    apply Forall_app. split; [|apply Forall_app; split].
    - eapply Forall_impl; [exact Hp|].
      intros e [args [-> | ->]]; auto.
    - eapply Forall_impl; [exact Ht|]. exact H3.
    - unfold handover. repeat constructor; apply H1. }
  split; [|split].
  - apply Hcount; try reflexivity. intros e; destruct e; simpl; congruence.
  - apply Hcount; try reflexivity. intros e; destruct e; simpl; congruence.
  - rewrite !forwarded_app.
    rewrite (forwarded_none (preamble w)), (forwarded_none t); [reflexivity| |].
    + eapply Forall_impl; [exact Ht|]. intros e; destruct e; simpl; congruence.
    + eapply Forall_impl; [exact Hp|]. intros e [args [-> | ->]]; reflexivity.
Qed.

(** C3.  Credentials present, initialization succeeded, the lines before
    answered: a line that spells [exit] in any letter case ends the script.
    [main] returns, so the process ends with status 0 and without
    [process.exit]; the reader was closed once, as the last thing done; the
    messages that reached the agent are the scripted prompt and the earlier
    lines, the exit line not among them; later lines are never read. *)
Theorem exit_command_ends_chat
        (ls : list string) (l : string) (rest : list string)
        (w w' : world) (agent : Agent) (config : AgentConfig)
        (t : list event) :
  missing (env w) = [] ->
  initializeAgent JSON_stringify sdk w = mkRun (Done (agent, config)) w' t ->
  Forall (fun x => isExit x = false) ls ->
  all_complete agent (submitted w') (initialPrompt :: ls) = true ->
  In l exit_spellings ->
  let r := program JSON_stringify sdk (ls ++ l :: rest) w in
  out r = Done tt
  /\ exit_status (out r) = Some 0
  /\ count is_close (trace r) = 1%nat
  /\ count is_exit (trace r) = 0%nat
  /\ forwarded (trace r) = initialPrompt :: ls
  /\ ~ In l (forwarded (trace r))
  /\ count is_question (trace r) = S (length ls)
  /\ exists before,
       trace r = before ++ [RlQuestion "> "; ConsoleLog [Str "Exiting..."];
                            RlClose].
Proof.
  intros Hm E Hne Hc Hl. apply isExit_spellings in Hl. cbv zeta.
  pose proof (initializeAgent_summary JSON_stringify sdk w) as Hs.
  unfold holds in Hs. rewrite E in Hs. cbn [trace] in Hs.
  destruct Hs as (_ & _ & Hinit & _).
  destruct (startup_quiet w t Hm Hinit) as (Hq1 & Hq2 & Hq3).
  rewrite (program_run_done _ _ _ _ _ _ Hm E).
  rewrite (runChatMode_complete_prefix _ _ _ _ _ Hne Hc).
  rewrite (chatLoop_exit _ _ _ _ _ Hl).
  unfold guarded, prepend. cbn [out after trace].
  set (start := preamble w ++ t ++ handover) in *.
  destruct (turn_events agent config (submitted w') initialPrompt) as [Te Tf].
  destruct (turns_events agent config (submitted w' ++ [initialPrompt]) ls)
    as [Se Sf].
  assert (forwarded
            (start ++ (opening
               ++ turn agent config (submitted w') initialPrompt
               ++ turns agent config (submitted w' ++ [initialPrompt]) ls)
               ++ [RlQuestion "> "; ConsoleLog [Str "Exiting..."]] ++ [RlClose])
          = initialPrompt :: ls) as Hf.
  { rewrite !forwarded_app, Hq3, Tf, Sf, (proj2 opening_quiet).
    cbn [app forwarded]. rewrite app_nil_r. reflexivity. }
  assert (forall p : event -> bool,
            (forall e, loop_event e = true -> p e = false) ->
            p RlCreateInterface = false ->
            count p (opening
               ++ turn agent config (submitted w') initialPrompt
               ++ turns agent config (submitted w' ++ [initialPrompt]) ls)
            = 0%nat) as Hquiet.
  { intros p Hp Hp'. apply count_none.
    apply Forall_app. split;
      [unfold opening; repeat constructor; auto|].
    apply Forall_app. split; eapply Forall_impl; eauto. }
  split; [reflexivity|]. split; [reflexivity|].
  split; [|split; [|split; [exact Hf|split; [|split]]]].
  - rewrite count_app, Hq1, count_app, Hquiet; [reflexivity| |reflexivity].
    intros e; destruct e; simpl; congruence.
  - rewrite count_app, Hq2, count_app, Hquiet; [reflexivity| |reflexivity].
    intros e; destruct e; simpl; congruence.
  - rewrite Hf. intros [Hin|Hin].
    + subst l. discriminate Hl.
    + rewrite Forall_forall in Hne. apply list_elem_of_In in Hin.
      rewrite (Hne _ Hin) in Hl. discriminate Hl.
  - assert (count is_question start = 0%nat) as Hs0.
    { apply count_none. unfold start.
      pose proof (preamble_quiet w Hm) as Hp.
      apply Forall_app. split; [|apply Forall_app; split].
      - eapply Forall_impl; [exact Hp|]. intros e [args [-> | ->]]; reflexivity.
      - eapply Forall_impl; [exact Hinit|].
        intros e; destruct e; simpl; congruence.
      - repeat constructor. }
    assert (count is_question
              (turn agent config (submitted w') initialPrompt) = 0%nat) as Ht0.
    { unfold turn. apply count_none. constructor; [reflexivity|].
      induction (chunks_of (stream agent (submitted w') initialPrompt))
        as [|c cs IH]; simpl; [constructor|].
      apply Forall_app. split; [|exact IH].
      exact (logs_are is_question _ false (fun _ => eq_refl) (printed_logs c)). }
    rewrite count_app, Hs0, count_app, (count_app _ opening), count_app, Ht0,
      (turns_questions agent config).
    change (count is_question opening) with 0%nat.
    change (count is_question
              ([RlQuestion "> "; ConsoleLog [Str "Exiting..."]] ++ [RlClose]))
      with 1%nat.
    lia.
  - exists (start ++ opening
              ++ turn agent config (submitted w') initialPrompt
              ++ turns agent config (submitted w' ++ [initialPrompt]) ls).
    rewrite <- !app_assoc. reflexivity.
Qed.

End ExitCommand.

(** ** Concrete runs *)

Example isExit_examples :
  isExit "exit" = true /\ isExit "EXIT" = true /\ isExit "eXiT" = true
  /\ isExit "exit " = false /\ isExit " exit" = false /\ isExit "quit" = false
  /\ isExit "" = false.
Proof. repeat split. Qed.

(** C1.  An agent whose [stream] call rejects with [Error("boom")]: the
    [catch] clause prints the message and calls [process.exit(1)], which ends
    the process there; the [finally] clause is never reached and the trace
    holds no [rl.close()]. *)
Theorem error_exit_leaves_reader_open :
  let r := runChatMode failingAgent agentConfig ["hello"] freshWorld in
  out r = Exit 1
  /\ trace r =
     opening ++ [AgentStream initialPrompt "CDP AgentKit Chatbot Example!";
                 ConsoleError [Str "Error:"; Str "boom"];
                 ProcessExit 1]
  /\ count is_close (trace r) = 0%nat.
Proof. vm_compute. repeat split. Qed.

(** A thrown value that is no [Error] instance is not printed at all
    (line 171); the process ends the same way. *)
Example non_error_value_not_printed :
  let r := runChatMode (mkAgent (fun _ _ => Rejects (NonError "oops")))
                       agentConfig [] freshWorld in
  out r = Exit 1
  /\ trace r =
     opening ++ [AgentStream initialPrompt "CDP AgentKit Chatbot Example!";
                 ProcessExit 1].
Proof. vm_compute. repeat split. Qed.

(** The same session with an agent that answers ends through the exit
    command, and there the reader is closed. *)
Example normal_exit_closes_reader :
  let r := runChatMode echoAgent agentConfig ["exit"] freshWorld in
  out r = Done tt /\ count is_close (trace r) = 1%nat.
Proof. vm_compute. repeat split. Qed.


Example wallet_file_tested_when_absent :
  wallet_accesses
    (trace (program braces (sdkWith echoAgent) ["exit"] freshWorld))
  = [FsExistsSync WALLET_DATA_FILE; FsWriteFileSync WALLET_DATA_FILE "{seed}"].
Proof. vm_compute. reflexivity. Qed.

Lemma exit_command_ends_chat_witness :
  let r := program braces (sdkWith echoAgent) (["hi"] ++ "EXIT" :: ["more"])
                   freshWorld in
  out r = Done tt
  /\ exit_status (out r) = Some 0
  /\ count is_close (trace r) = 1%nat
  /\ count is_exit (trace r) = 0%nat
  /\ forwarded (trace r) = initialPrompt :: ["hi"]
  /\ ~ In "EXIT" (forwarded (trace r))
  /\ count is_question (trace r) = S (length ["hi"])
  /\ exists before,
       trace r = before ++ [RlQuestion "> "; ConsoleLog [Str "Exiting..."];
                            RlClose].
Proof.
  apply (exit_command_ends_chat braces (sdkWith echoAgent)
           ["hi"] "EXIT" ["more"] freshWorld
           (after (initializeAgent braces (sdkWith echoAgent) freshWorld))
           echoAgent agentConfig
           (trace (initializeAgent braces (sdkWith echoAgent) freshWorld))).
  - vm_compute. reflexivity.
  - vm_compute. reflexivity.
  - repeat constructor.
  - vm_compute. reflexivity.
  - vm_compute. auto 20.
Defined.

Lemma stream_chunks_printed_by_tag_witness :
  let c : Chunk := {[ "tools" := mkNodeUpdate [mkMessage "tool output"] ]} in
  exists rest,
    [ConsoleLog [Str "re: hi"]; ConsoleLog [Str "-------------------"];
     ConsoleLog [Str "tool output"]; ConsoleLog [Str "-------------------"];
     ConsoleLog [Str "-------------------"];
     RlQuestion "> "; ConsoleLog [Str "Exiting..."]; RlClose]
    = flat_map printed
        [ {[ "agent" := mkNodeUpdate [mkMessage "re: hi"] ]} ] ++ rest
    /\ (forall u m ms,
          c !! "agent" = Some u -> messages u = m :: ms ->
          exists rest',
            rest = ConsoleLog [Str (content m)]
                   :: ConsoleLog [Str "-------------------"] :: rest')
    /\ (forall u m ms,
          c !! "agent" = None -> c !! "tools" = Some u ->
          messages u = m :: ms ->
          exists rest',
            rest = ConsoleLog [Str (content m)]
                   :: ConsoleLog [Str "-------------------"] :: rest')
    /\ (c !! "agent" = None -> c !! "tools" = None ->
        exists rest', rest = ConsoleLog [Str "-------------------"] :: rest')
    /\ (printable c = false ->
        rest = [ConsoleError
                  [Str "Error:";
                   Str "Cannot read properties of undefined (reading 'content')"];
                ProcessExit 1]
        /\ out (runChatMode echoAgent agentConfig ["hi"; "EXIT"] freshWorld)
           = Exit 1).
Proof.
  intros c.
  apply (stream_chunks_printed_by_tag echoAgent agentConfig ["hi"; "EXIT"]
           freshWorld
           (opening ++ turn echoAgent agentConfig [] initialPrompt
              ++ [RlQuestion "> "])
           _ "hi" (thread_id agentConfig)
           [ {[ "agent" := mkNodeUpdate [mkMessage "re: hi"] ]} ]
           c [∅] None).
  - vm_compute. reflexivity.
  - vm_compute. reflexivity.
  - vm_compute. reflexivity.
Defined.

(** C5, as stated, fails: the first chunk carries a [tools] message and its
    [agent] entry carries none, yet neither the tool output nor a separator
    is printed for it, and the chunk after it is never reached. *)
Lemma empty_entry_gets_no_separator :
  stream emptyEntryAgent (submitted freshWorld) initialPrompt
  = Yields [ {[ "agent" := mkNodeUpdate [];
                "tools" := mkNodeUpdate [mkMessage "tool output"] ]};
             {[ "agent" := mkNodeUpdate [mkMessage "never shown"] ]} ] None
  /\ trace (runChatMode emptyEntryAgent agentConfig ["hi"] freshWorld)
     = opening
         ++ [AgentStream initialPrompt "CDP AgentKit Chatbot Example!";
             ConsoleError
               [Str "Error:";
                Str "Cannot read properties of undefined (reading 'content')"];
             ProcessExit 1]
  /\ ~ In (ConsoleLog [Str "tool output"])
          (trace (runChatMode emptyEntryAgent agentConfig ["hi"] freshWorld))
  /\ ~ In (ConsoleLog [Str "-------------------"])
          (trace (runChatMode emptyEntryAgent agentConfig ["hi"] freshWorld)).
Proof.
  split; [reflexivity|]. split; [vm_compute; reflexivity|].
  split; intros H; vm_compute in H;
    repeat (destruct H as [H|H]; [discriminate H|]); exact H.
Qed.


Lemma unreadable_snapshot_tolerated_witness :
  out (readExistingWalletData unreadableWorld) = Done None
  /\ after (readExistingWalletData unreadableWorld) = unreadableWorld
  /\ ((exists f, files unreadableWorld !! WALLET_DATA_FILE = Some f) ->
      In (ConsoleError [Str "Error reading wallet data:";
                        Val (ErrorObj "EACCES: permission denied")])
         (trace (readExistingWalletData unreadableWorld)))
  /\ cdpWalletData (config_of unreadableWorld) = None
  /\ (forall c, In (ConfigureWithWallet c)
                   (trace (initializeAgent braces (sdkWith echoAgent)
                             unreadableWorld)) ->
                cdpWalletData c = None)
  /\ (forall u, ChatOpenAI (sdkWith echoAgent) model_id = Ok u ->
                In (ConfigureWithWallet (config_of unreadableWorld))
                   (trace (initializeAgent braces (sdkWith echoAgent)
                             unreadableWorld))).
Proof.
  apply (unreadable_snapshot_tolerated braces (sdkWith echoAgent)
           unreadableWorld).
  right. exists (mkFile "{old}" false true). split; vm_compute; reflexivity.
Defined.

(** C8, as stated, fails: with nothing set the network identifier is unset
    too, yet no warning is printed and the process is ended with status 1. *)
Lemma network_warning_needs_credentials :
  env bareWorld !! "NETWORK_ID" = None
  /\ out (program braces (sdkWith echoAgent) [] bareWorld) = Exit 1
  /\ ~ In env_warning (trace (program braces (sdkWith echoAgent) [] bareWorld)).
Proof.
  split; [reflexivity|]. split; [vm_compute; reflexivity|].
  intros H. vm_compute in H.
  repeat (destruct H as [H|H]; [discriminate H|]). exact H.
Qed.

Lemma network_defaults_to_base_sepolia_witness :
  validateEnvironment freshWorld = mkRun (Done tt) freshWorld [env_warning]
  /\ In env_warning
        (trace (program braces (sdkWith echoAgent) ["exit"] freshWorld))
  /\ networkId (config_of freshWorld) = "base-sepolia"
  /\ (forall c, In (ConfigureWithWallet c)
                   (trace (program braces (sdkWith echoAgent) ["exit"]
                             freshWorld)) ->
                networkId c = "base-sepolia")
  /\ (forall u, ChatOpenAI (sdkWith echoAgent) model_id = Ok u ->
                In (ConfigureWithWallet (config_of freshWorld))
                   (trace (program braces (sdkWith echoAgent) ["exit"]
                             freshWorld))).
Proof.
  apply (network_defaults_to_base_sepolia braces (sdkWith echoAgent)
           ["exit"] freshWorld); vm_compute; reflexivity.
Defined.

Lemma chat_turns_in_order_witness :
  exists j, (j <= length ["hi"; "EXIT"])%nat
    /\ Forall (fun l => isExit l = false) (take j ["hi"; "EXIT"])
    /\ all_complete echoAgent (submitted freshWorld)
         (initialPrompt :: take j ["hi"; "EXIT"]) = true
    /\ opening ++ turn echoAgent agentConfig [] initialPrompt
         ++ turns echoAgent agentConfig [initialPrompt] ["hi"]
       = opening ++ turn echoAgent agentConfig (submitted freshWorld)
                      initialPrompt
           ++ turns echoAgent agentConfig
                (submitted freshWorld ++ [initialPrompt])
                (take j ["hi"; "EXIT"]).
Proof.
  apply (proj1 (proj2 (proj2
           (chat_turns_in_order echoAgent agentConfig ["hi"; "EXIT"]
              freshWorld)))
           (opening ++ turn echoAgent agentConfig [] initialPrompt
              ++ turns echoAgent agentConfig [initialPrompt] ["hi"])
           [ConsoleLog [Str "Exiting..."]; RlClose]).
  vm_compute. reflexivity.
Defined.

Lemma non_exit_line_forwarded_witness :
  let r := runChatMode echoAgent agentConfig (["hi"] ++ "exit " :: ["EXIT"])
                       freshWorld in
  (exists post,
     trace r = opening ++ turn echoAgent agentConfig (submitted freshWorld)
                            initialPrompt
                 ++ turns echoAgent agentConfig
                      (submitted freshWorld ++ [initialPrompt]) ["hi"]
                 ++ RlQuestion "> "
                    :: AgentStream "exit " (thread_id agentConfig) :: post)
  /\ forwarded (trace r) <> initialPrompt :: ["hi"]
  /\ (complete (stream echoAgent
                  (submitted freshWorld ++ initialPrompt :: ["hi"]) "exit ")
      = true ->
      exists post,
        trace r = opening ++ turn echoAgent agentConfig (submitted freshWorld)
                               initialPrompt
                    ++ turns echoAgent agentConfig
                         (submitted freshWorld ++ [initialPrompt])
                         (["hi"] ++ ["exit "])
                    ++ RlQuestion "> " :: post).
Proof.
  apply (non_exit_line_forwarded echoAgent agentConfig ["hi"] "exit " ["EXIT"]
           freshWorld).
  - repeat constructor.
  - vm_compute. reflexivity.
  - vm_compute. intros H. discriminate H.
Defined.

(** The scenario of the specification: valid credentials, no snapshot file.
    The snapshot exists afterwards, and the answer to the scripted prompt is
    on the console before the first [> ] prompt. *)
Example first_run_session :
  let r := program braces (sdkWith echoAgent) ["exit"] freshWorld in
  files (after r) !! WALLET_DATA_FILE = Some (mkFile "{seed}" true true)
  /\ exit_status (out r) = Some 0
  /\ exists before,
       trace r =
       before ++
       [AgentStream initialPrompt "CDP AgentKit Chatbot Example!";
        ConsoleLog [Str ("re: " +:+ initialPrompt)];
        ConsoleLog [Str separator];
        ConsoleLog [Str "tool output"];
        ConsoleLog [Str separator];
        ConsoleLog [Str separator];
        RlQuestion "> ";
        ConsoleLog [Str "Exiting..."];
        RlClose].
Proof.
  cbv zeta. split; [vm_compute; reflexivity|].
  split; [vm_compute; reflexivity|].
  exists (take 16 (trace (program braces (sdkWith echoAgent) ["exit"]
                             freshWorld))).
  vm_compute. reflexivity.
Qed.

(** ** More on [initializeAgent] *)

Section InitializationSteps.

Context {WalletData : Type} (JSON_stringify : WalletData -> string)
        (sdk : Sdk WalletData).

(** Every path through [initializeAgent] once more, for the order of its
    steps and for what a failure leaves behind. *)
Lemma initializeAgent_steps w :
  holds (fun r =>
     (exists n, (n <= 6)%nat
        /\ List.filter sdk_call (trace r) = take n (sdk_sequence w)) /\
     match out r with
     | Done ac =>
         List.filter sdk_call (trace r) = sdk_sequence w /\
         count is_failure_log (trace r) = 0%nat /\
         init_succeeds sdk w (fst ac) /\
         exists wp d,
           configureWithWallet sdk (config_of w) = Ok wp /\
           exportWallet wp = Ok d /\
           files (after r) !! WALLET_DATA_FILE =
             Some (mkFile (JSON_stringify d) (readable_after_write w) true)
     | Throw e =>
         exists t, trace r = t ++ [failure_log e]
                   /\ count is_failure_log t = 0%nat
     | _ => False
     end) (initializeAgent JSON_stringify sdk) w.
Proof.
  unfold initializeAgent, buildConfig, init_succeeds, sdk_sequence,
    readable_after_write, config_of, snapshot_of, probe.
  destruct (files w !! WALLET_DATA_FILE) as [f|] eqn:Ef;
    [destruct (readable f) eqn:Er; destruct (writable f) eqn:Ew|].
  all: match goal with |- holds ?Q _ _ => set (post := Q) end.
  all: repeat run_step.
  all: subst post; cbv beta.
  all: run_done.
  all: split;
    [match goal with
     | |- exists n, _ /\ List.filter ?p ?L = _ =>
         exists (length (List.filter p L)); cbn [List.filter sdk_call length];
         split; [lia|reflexivity]
     end|].
  all: try match goal with
     | |- exists t, ?L = t ++ _ /\ _ =>
         exists (removelast L);
         cbn [removelast app count List.filter is_failure_log length];
         try change (String.eqb "Error reading wallet data:"
                                "Failed to initialize agent:") with false;
         cbn [length]; split; reflexivity
     end.
  all: split; [cbn [List.filter sdk_call]; reflexivity|].
  all: split;
    [cbn [count List.filter is_failure_log length];
     try change (String.eqb "Error reading wallet data:"
                            "Failed to initialize agent:") with false;
     reflexivity|].
  all: split;
    [cbn [fst]; repeat split; eauto; intros f0 Hf0; congruence|].
  all: do 2 eexists; split; [reflexivity|split; [eassumption|]].
  all: cbn [files]; apply lookup_insert_eq.
Qed.

(** X1.  The SDK calls of [initializeAgent] are made in one fixed order, each
    at most once and none skipped: the calls of a run are always an initial
    stretch of model client, wallet provider, toolkit (both action providers
    with the credentials of the wallet configuration), tools, agent, wallet
    export.  A run that returns has made all six. *)
Theorem initializeAgent_calls_in_order (w : world) :
  (exists n, (n <= 6)%nat
     /\ List.filter sdk_call (trace (initializeAgent JSON_stringify sdk w))
        = take n (sdk_sequence w))
  /\ (forall ac,
        out (initializeAgent JSON_stringify sdk w) = Done ac ->
        List.filter sdk_call (trace (initializeAgent JSON_stringify sdk w))
        = sdk_sequence w).
Proof.
  pose proof (initializeAgent_steps w) as [Hn H]. unfold holds in *.
  split; [exact Hn|]. intros ac Ho. rewrite Ho in H. exact (proj1 H).
Qed.

(** X2.  [initializeAgent] returns only when every step has succeeded: each
    SDK call answered and the snapshot file, if there was one, could be
    written.  What it returns is the agent [createReactAgent] produced, with
    the fixed thread configuration. *)
Theorem initializeAgent_returns_only_if (w : world) (ac : Agent * AgentConfig) :
  out (initializeAgent JSON_stringify sdk w) = Done ac ->
  snd ac = agentConfig /\ init_succeeds sdk w (fst ac).
Proof.
  intros Ho.
  pose proof (initializeAgent_steps w) as [_ H].
  pose proof (initializeAgent_summary JSON_stringify sdk w)
    as (_ & _ & _ & _ & _ & Hs).
  unfold holds in *. rewrite Ho in H, Hs.
  split; [exact (proj1 Hs)|exact (proj1 (proj2 (proj2 H)))].
Qed.



Lemma configured_snapshot (w : world) (f : file) (c : WalletConfig) :
  files w !! WALLET_DATA_FILE = Some f ->
  readable f = true ->
  In (ConfigureWithWallet c) (trace (initializeAgent JSON_stringify sdk w)) ->
  cdpWalletData c = or_undefined (Some (data f)).
Proof.
  intros Hf Hr Hin.
  pose proof (initializeAgent_summary JSON_stringify sdk w)
    as (_ & _ & _ & Hc & _).
  unfold holds in Hc. rewrite (Hc c Hin).
  unfold config_of, snapshot_of. rewrite Hf, Hr. reflexivity.
Qed.

(** X4.  A readable snapshot reaches the wallet provider verbatim as
    [cdpWalletData]; an empty one counts as no snapshot. *)
Theorem snapshot_passed_to_wallet_provider
        (w : world) (f : file) (c : WalletConfig) :
  files w !! WALLET_DATA_FILE = Some f ->
  readable f = true ->
  In (ConfigureWithWallet c) (trace (initializeAgent JSON_stringify sdk w)) ->
  (data f = "" -> cdpWalletData c = None)
  /\ (data f <> "" -> cdpWalletData c = Some (data f)).
Proof.
  intros Hf Hr Hin. rewrite (configured_snapshot w f c Hf Hr Hin).
  destruct (data f) as [|a s]; split; intros H; try reflexivity;
    try congruence.
Qed.

End InitializationSteps.



(** ** More on [runChatMode] *)

(** A marked event found in [t ++ [y]], where [t] holds none, is [y]. *)
Lemma marker_last (p : event -> bool) (t pre post : list event) (x y : event) :
  Forall (fun e => p e = false) t ->
  p x = true ->
  t ++ [y] = pre ++ x :: post ->
  post = [] /\ x = y /\ pre = t.
Proof.
  intros Ht Hx. revert pre.
  induction Ht as [|a t Ha _ IH]; intros pre E.
  - destruct pre as [|b pre]; simpl in E.
    + injection E as -> <-. auto.
    + injection E as _ E. destruct pre; discriminate E.
  - destruct pre as [|b pre]; simpl in E; injection E as E1 E2.
    + subst a. congruence.
    + subst b. destruct (IH pre E2) as (-> & -> & ->). auto.
Qed.

Lemma marker_absent (p : event -> bool) (t pre post : list event) (x : event) :
  Forall (fun e => p e = false) t ->
  p x = true ->
  t = pre ++ x :: post -> False.
Proof.
  intros Ht Hx ->. apply Forall_app in Ht as [_ Ht].
  inversion Ht as [|? ? Hx' _]; subst. congruence.
Qed.

Lemma drain_failing chunks e :
  forallb printable chunks = true ->
  drain chunks (Some e) = (flat_map printed chunks, Some e).
Proof.
  induction chunks as [|c rest IH]; simpl; [reflexivity|].
  intros H. apply andb_prop in H as [Hc Hr].
  rewrite Hc, (IH Hr). reflexivity.
Qed.

Lemma drain_hollow chunks c more fin :
  forallb printable chunks = true ->
  printable c = false ->
  drain (chunks ++ c :: more) fin = (flat_map printed chunks, Some type_error).
Proof.
  intros H Hc. induction chunks as [|x rest IH]; simpl.
  - rewrite Hc. reflexivity.
  - simpl in H. apply andb_prop in H as [Hx Hr].
    rewrite Hx, (IH Hr). reflexivity.
Qed.

Section MoreSessions.

Variables (agent : Agent) (config : AgentConfig).

(** Any run of [runChatMode]: events that neither close the reader nor end
    the process, followed by [rl.close()] when it returns, by
    [process.exit(1)] when it fails, by nothing while it waits. *)
Lemma runChatMode_shape input w :
  exists t,
    Forall (fun e => is_close e = false) t
    /\ Forall (fun e => is_exit e = false) t
    /\ count is_create t = 1%nat
    /\ ((out (runChatMode agent config input w) = Done tt
         /\ trace (runChatMode agent config input w) = t ++ [RlClose])
        \/ (out (runChatMode agent config input w) = Exit 1
            /\ trace (runChatMode agent config input w) = t ++ [ProcessExit 1])
        \/ (out (runChatMode agent config input w) = Pending
            /\ trace (runChatMode agent config input w) = t)).
Proof.
  rewrite runChatMode_run.
  pose proof (loop_body_events agent config input w) as (Ht & Ho & _).
  pose proof (opening_turn_events agent config w) as Hopen.
  cbv zeta in Ht, Ho.
  set (body := match snd (answer (stream agent (submitted w) initialPrompt))
               with
               | None => chatLoop agent config input (sent w initialPrompt)
               | Some e => mkRun (Throw e) (sent w initialPrompt) []
               end) in *.
  set (head := opening ++ _) in *.
  assert (forall p : event -> bool,
            (forall e, chat_event e && negb (is_close e) && negb (is_exit e)
                       && negb (is_question e) = true -> p e = false) ->
            (forall e, loop_event e = true -> p e = false) ->
            Forall (fun e => p e = false) (head ++ trace body)) as Hq.
  { intros p H1 H2. apply Forall_app. split.
    - eapply Forall_impl; [exact Hopen|exact H1].
    - eapply Forall_impl; [exact Ht|exact H2]. }
  assert (count is_create (head ++ trace body) = 1%nat) as Hcr.
  { rewrite count_app.
    rewrite (count_none is_create (trace body)).
    - unfold head. rewrite count_app.
      rewrite (count_none is_create (AgentStream _ _ :: _)); [reflexivity|].
      constructor; [reflexivity|].
      exact (logs_are is_create _ false (fun _ => eq_refl) (answer_logs _)).
    - eapply Forall_impl; [exact Ht|].
      intros e; destruct e; simpl; congruence. }
  assert (Forall (fun e => is_close e = false) (head ++ trace body)) as Hc.
  { apply Hq; intros e; destruct e; simpl; congruence. }
  assert (Forall (fun e => is_exit e = false) (head ++ trace body)) as Hx.
  { apply Hq; intros e; destruct e; simpl; congruence. }
  unfold guarded, prepend. destruct body as [o w' t]. cbn [out after trace] in *.
  destruct o as [[]|e|c|]; cbn [out after trace].
  - exists (head ++ t). repeat split; try assumption.
    left. rewrite app_assoc. auto.
  - exists ((head ++ t) ++ error_report e).
    assert (Forall (fun x => is_close x = false) (error_report e)
            /\ Forall (fun x => is_exit x = false) (error_report e)
            /\ count is_create (error_report e) = 0%nat) as (E1 & E2 & E3).
    { unfold error_report. destruct (instanceofError e);
        repeat split; repeat constructor. }
    split; [apply Forall_app; auto|]. split; [apply Forall_app; auto|].
    split; [rewrite count_app, Hcr, E3; reflexivity|].
    right. left. split; [reflexivity|]. rewrite <- !app_assoc. reflexivity.
  - destruct (Ho c eq_refl).
  - exists (head ++ t). repeat split; try assumption. right. right. auto.
Qed.

(** X6.  The line reader is created once per session, and closing it is the
    last thing [runChatMode] does: nothing is prompted, printed or sent
    after [rl.close()], and the function has returned normally. *)
Theorem reader_closed_last (input : list string) (w : world) :
  let r := runChatMode agent config input w in
  count is_create (trace r) = 1%nat
  /\ (forall pre post,
        trace r = pre ++ RlClose :: post ->
        post = [] /\ out r = Done tt
        /\ count is_create pre = 1%nat).
Proof.
  cbv zeta. destruct (runChatMode_shape input w)
    as (t & Hc & Hx & Hcr & [[Ho Ht]|[[Ho Ht]|[Ho Ht]]]); rewrite Ht.
  - split; [rewrite count_app, Hcr; reflexivity|].
    intros pre post E.
    destruct (marker_last is_close t pre post RlClose RlClose Hc eq_refl E)
      as (-> & _ & ->). auto.
  - split; [rewrite count_app, Hcr; reflexivity|].
    intros pre post E. exfalso.
    apply (marker_absent is_close (t ++ [ProcessExit 1]) pre post RlClose);
      [|reflexivity|exact E].
    apply Forall_app. split; [exact Hc|repeat constructor].
  - split; [exact Hcr|]. intros pre post E. exfalso.
    exact (marker_absent is_close t pre post RlClose Hc eq_refl E).
Qed.

Lemma chatLoop_done input w :
  out (chatLoop agent config input w) = Done tt ->
  exists ls l rest,
    input = ls ++ l :: rest
    /\ isExit l = true
    /\ Forall (fun x => isExit x = false) ls
    /\ all_complete agent (submitted w) ls = true.
Proof.
  revert w. induction input as [|x input IH]; intros w Ho.
  - rewrite chatLoop_nil in Ho. discriminate Ho.
  - destruct (isExit x) eqn:Hx.
    + exists [], x, input. repeat split; [exact Hx|constructor].
    + rewrite (chatLoop_line _ _ _ _ _ Hx) in Ho.
      destruct (snd (answer (stream agent (submitted w) x))) as [e|] eqn:Hs;
        [discriminate Ho|].
      change (out (chatLoop agent config input (sent w x)) = Done tt) in Ho.
      destruct (IH _ Ho) as (ls & l & rest & -> & Hl & Hne & Hc).
      exists (x :: ls), l, rest. cbn [all_complete].
      rewrite (answer_none _ Hs). repeat split; [exact Hl| |exact Hc].
      constructor; assumption.
Qed.

(** X7.  [runChatMode] returns only through the exit command: if it
    returned, some input line spells [exit] in some letter case, every line
    before it was an ordinary line, and the scripted prompt and all those
    lines were answered to the end. *)
Theorem runChatMode_returns_only_on_exit (input : list string) (w : world) :
  out (runChatMode agent config input w) = Done tt ->
  exists ls l rest,
    input = ls ++ l :: rest
    /\ In l exit_spellings
    /\ Forall (fun x => toLowerCase x <> "exit") ls
    /\ all_complete agent (submitted w) (initialPrompt :: ls) = true.
Proof.
  rewrite runChatMode_run. unfold prepend. cbn [out]. intros Ho.
  destruct (snd (answer (stream agent (submitted w) initialPrompt)))
    as [e|] eqn:Hs; [discriminate Ho|].
  assert (out (chatLoop agent config input (sent w initialPrompt)) = Done tt)
    as Hl.
  { unfold guarded in Ho.
    destruct (chatLoop agent config input (sent w initialPrompt)) as [o w' t].
    cbn [out] in *. destruct o as [[]|?|?|]; try discriminate Ho. reflexivity. }
  destruct (chatLoop_done _ _ Hl) as (ls & l & rest & -> & Hx & Hne & Hc).
  exists ls, l, rest. cbn [all_complete]. rewrite (answer_none _ Hs).
  repeat split; [apply isExit_spellings; exact Hx| |exact Hc].
  eapply Forall_impl; [exact Hne|]. intros x. apply isExit_false.
Qed.

(** A session in which the turn of line [l] fails with [e] after printing
    [t]. *)
Lemma runChatMode_failed_turn ls l rest w t e :
  Forall (fun x => isExit x = false) ls ->
  all_complete agent (submitted w) (initialPrompt :: ls) = true ->
  isExit l = false ->
  answer (stream agent (submitted w ++ initialPrompt :: ls) l) = (t, Some e) ->
  runChatMode agent config (ls ++ l :: rest) w =
  mkRun (Exit 1) (fold_left sent (initialPrompt :: ls ++ [l]) w)
    (opening ++ turn agent config (submitted w) initialPrompt
       ++ turns agent config (submitted w ++ [initialPrompt]) ls
       ++ RlQuestion "> " :: AgentStream l (thread_id config) :: t
       ++ error_report e ++ [ProcessExit 1]).
Proof.
  intros Hne Hc Hl Ha.
  rewrite (runChatMode_complete_prefix _ _ _ _ _ Hne Hc).
  rewrite (chatLoop_line _ _ _ _ _ Hl).
  rewrite (submitted_fold (initialPrompt :: ls) w).
  rewrite Ha. cbn [fst snd]. unfold guarded, prepend. cbn [out after trace].
  f_equal.
  - rewrite (app_comm_cons ls [l] initialPrompt), fold_left_app. reflexivity.
  - rewrite app_nil_r, <- !app_assoc. reflexivity.
Qed.

(** X8.  A response stream that fails while it is read ends the process:
    the chunks delivered before the failure are printed, then the error's
    message, and the process exits with status 1; the reader is not closed
    and the remaining lines are never read. *)
Theorem failed_turn_ends_process
        (ls : list string) (l : string) (rest : list string) (w : world)
        (chunks : list Chunk) (msg : string) :
  Forall (fun x => toLowerCase x <> "exit") ls ->
  all_complete agent (submitted w) (initialPrompt :: ls) = true ->
  toLowerCase l <> "exit" ->
  stream agent (submitted w ++ initialPrompt :: ls) l
    = Yields chunks (Some (ErrorObj msg)) ->
  forallb printable chunks = true ->
  let r := runChatMode agent config (ls ++ l :: rest) w in
  out r = Exit 1
  /\ trace r =
     opening ++ turn agent config (submitted w) initialPrompt
       ++ turns agent config (submitted w ++ [initialPrompt]) ls
       ++ RlQuestion "> " :: AgentStream l (thread_id config)
          :: flat_map printed chunks
       ++ [ConsoleError [Str "Error:"; Str msg]; ProcessExit 1]
  /\ count is_close (trace r) = 0%nat
  /\ count is_question (trace r) = S (length ls).
Proof.
  intros Hne Hc Hl Hs Hp. cbv zeta.
  assert (Forall (fun x => isExit x = false) ls) as Hne'.
  { eapply Forall_impl; [exact Hne|]. intros x. apply isExit_false. }
  apply isExit_false in Hl.
  assert (answer (stream agent (submitted w ++ initialPrompt :: ls) l)
          = (flat_map printed chunks, Some (ErrorObj msg))) as Ha.
  { rewrite Hs. cbn [answer]. apply drain_failing. exact Hp. }
  rewrite (runChatMode_failed_turn ls l rest w _ _ Hne' Hc Hl Ha).
  cbn [out trace error_report instanceofError message].
  split; [reflexivity|]. split; [reflexivity|].
  assert (Forall (fun e => exists args, e = ConsoleLog args)
                 (flat_map printed chunks)) as Hlogs.
  { clear. induction chunks as [|c cs IH]; simpl; [constructor|].
    apply Forall_app. split; [apply printed_logs|exact IH]. }
  destruct (turn_events agent config (submitted w) initialPrompt) as [Te _].
  destruct (turns_events agent config (submitted w ++ [initialPrompt]) ls)
    as [Se _].
  split.
  - apply count_none. apply Forall_app. split; [repeat constructor|].
    apply Forall_app. split;
      [eapply Forall_impl; [exact Te|]; intros e; destruct e; simpl; congruence|].
    apply Forall_app. split;
      [eapply Forall_impl; [exact Se|]; intros e; destruct e; simpl; congruence|].
    constructor; [reflexivity|]. constructor; [reflexivity|].
    apply Forall_app. split; [|repeat constructor].
    exact (logs_are is_close _ false (fun _ => eq_refl) Hlogs).
  - rewrite count_app, count_app, count_app, (turns_questions agent config).
    change (count is_question opening) with 0%nat.
    rewrite (count_none is_question (turn _ _ _ _)).
    2: { unfold turn. constructor; [reflexivity|].
         clear. induction (chunks_of _) as [|c cs IH]; simpl; [constructor|].
         apply Forall_app. split; [|exact IH].
         exact (logs_are is_question _ false (fun _ => eq_refl)
                  (printed_logs c)). }
    change (RlQuestion "> " :: AgentStream l (thread_id config)
              :: flat_map printed chunks ++ ?x)
      with ([RlQuestion "> "] ++ (AgentStream l (thread_id config)
              :: flat_map printed chunks ++ x)).
    rewrite count_app.
    rewrite (count_none is_question (AgentStream _ _ :: _)).
    + change (count is_question [RlQuestion "> "]) with 1%nat. lia.
    + constructor; [reflexivity|]. apply Forall_app. split; [|repeat constructor].
      exact (logs_are is_question _ false (fun _ => eq_refl) Hlogs).
Qed.

(** X9.  A chunk whose [agent] entry has an empty [messages] array stops the
    session: reading [content] of the missing first message throws a
    [TypeError], whose message is printed; the chunks before it were
    printed, the chunk itself gets no separator line, the chunks after it
    are never printed, and the process exits with status 1. *)
Theorem hollow_chunk_ends_process
        (w : world) (input : list string)
        (chunks : list Chunk) (c : Chunk) (more : list Chunk)
        (fin : option thrown) (u : NodeUpdate) :
  stream agent (submitted w) initialPrompt = Yields (chunks ++ c :: more) fin ->
  forallb printable chunks = true ->
  c !! "agent" = Some u -> messages u = [] ->
  let r := runChatMode agent config input w in
  out r = Exit 1
  /\ trace r =
     opening ++ AgentStream initialPrompt (thread_id config)
       :: flat_map printed chunks
       ++ [ConsoleError
             [Str "Error:";
              Str "Cannot read properties of undefined (reading 'content')"];
           ProcessExit 1].
Proof.
  intros Hs Hp Hu Hm. cbv zeta.
  assert (printable c = false) as Hc.
  { unfold printable. rewrite Hu, Hm. reflexivity. }
  rewrite runChatMode_run, Hs. cbn [answer].
  rewrite (drain_hollow chunks c more fin Hp Hc). cbn [fst snd].
  unfold guarded, prepend. cbn [out after trace]. split; [reflexivity|].
  rewrite <- !app_assoc. reflexivity.
Qed.

(** Every call to the agent carries the thread of [config]. *)
Lemma chatLoop_thread input w :
  Forall (fun e => forall text tid,
            e = AgentStream text tid -> tid = thread_id config)
         (trace (chatLoop agent config input w)).
Proof.
  revert w. induction input as [|l rest IH]; intros w.
  - rewrite chatLoop_nil. repeat constructor; discriminate.
  - destruct (isExit l) eqn:Hl.
    + rewrite (chatLoop_exit _ _ _ _ _ Hl). repeat constructor; discriminate.
    + rewrite (chatLoop_line _ _ _ _ _ Hl). unfold prepend. cbn [trace].
      constructor; [discriminate|]. constructor; [congruence|].
      apply Forall_app. split.
      * eapply Forall_impl; [apply answer_logs|].
        intros e [args ->]. discriminate.
      * destruct (snd (answer (stream agent (submitted w) l)));
          [constructor|apply IH].
Qed.

Lemma runChatMode_thread input w :
  Forall (fun e => forall text tid,
            e = AgentStream text tid -> tid = thread_id config)
         (trace (runChatMode agent config input w)).
Proof.
  rewrite runChatMode_run. unfold prepend. cbn [trace].
  apply Forall_app. split.
  - apply Forall_app. split; [repeat constructor; discriminate|].
    constructor; [congruence|].
    eapply Forall_impl; [apply answer_logs|]. intros e [args ->]. discriminate.
  - destruct (guarded_trace
                match snd (answer (stream agent (submitted w) initialPrompt))
                with
                | None => chatLoop agent config input (sent w initialPrompt)
                | Some e => mkRun (Throw e) (sent w initialPrompt) []
                end) as (extra & -> & _ & Hx).
    apply Forall_app. split.
    + destruct (snd (answer (stream agent (submitted w) initialPrompt)));
        [constructor|apply chatLoop_thread].
    + clear -Hx. induction extra as [|e extra IH]; [constructor|].
      destruct e; simpl in Hx; try discriminate Hx;
        (constructor; [discriminate|apply IH; exact Hx]).
Qed.

End MoreSessions.

(** ** More on the whole script *)

Section WholeScript.

Context {WalletData : Type} (JSON_stringify : WalletData -> string)
        (sdk : Sdk WalletData).

(** What precedes the chat in a run that gets that far: nothing in it ends
    the process, opens the reader, or reaches the agent. *)
Lemma startup_events w :
  missing (env w) = [] ->
  Forall (fun e => is_exit e = false /\ is_create e = false
                   /\ forwarded [e] = []
                   /\ (is_warning e = true -> e = env_warning))
         (preamble w ++ trace (initializeAgent JSON_stringify sdk w)).
Proof.
  intros Hm.
  pose proof (initializeAgent_summary JSON_stringify sdk w)
    as (_ & _ & Hinit & _).
  unfold holds in Hinit. apply Forall_app. split.
  - unfold preamble. rewrite validateEnvironment_run, Hm. cbn [trace].
    destruct (truthy (env w !! "NETWORK_ID")); repeat constructor;
      try discriminate.
  - eapply Forall_impl; [exact Hinit|].
    intros e He. destruct e; try discriminate He; repeat split; discriminate.
Qed.

Lemma failed_validation_events (names : list string) :
  Forall (fun e => is_exit e = false /\ sdk_call e = false
                   /\ is_create e = false
                   /\ touches WALLET_DATA_FILE e = false)
    (ConsoleError [Str "Error: Required environment variables are not set"]
       :: map (fun v => ConsoleError [Str (placeholder v)]) names).
Proof.
  constructor; [repeat split|].
  induction names as [|v names IH]; simpl; constructor;
    [repeat split|exact IH].
Qed.

(** Any run of the script: events that do not end the process, followed by
    [process.exit(1)] when it fails. *)
Lemma program_shape input w :
  exists t,
    Forall (fun e => is_exit e = false) t
    /\ ((out (program JSON_stringify sdk input w) = Exit 1
         /\ trace (program JSON_stringify sdk input w) = t ++ [ProcessExit 1])
        \/ ((out (program JSON_stringify sdk input w) = Done tt
             \/ out (program JSON_stringify sdk input w) = Pending)
            /\ trace (program JSON_stringify sdk input w) = t)).
Proof.
  rewrite program_run. destruct (missing (env w)) as [|v names] eqn:Hm.
  - cbv zeta. pose proof (startup_events w Hm) as Hs.
    pose proof (initializeAgent_summary JSON_stringify sdk w)
      as (_ & _ & _ & _ & _ & Ho).
    unfold holds in Ho.
    destruct (initializeAgent JSON_stringify sdk w) as [o w' ti].
    cbn [out after trace] in *.
    assert (Forall (fun e => is_exit e = false) (preamble w ++ ti)) as Hq.
    { eapply Forall_impl; [exact Hs|]. intros e He. exact (proj1 He). }
    destruct o as [ac|e|c|]; [| |destruct Ho|destruct Ho].
    + destruct (runChatMode_shape (fst ac) (snd ac) input w')
        as (t & _ & Hx & _ & Hcases).
      assert (Forall (fun e => is_exit e = false)
                     ((preamble w ++ ti ++ handover) ++ t)) as Hall.
      { apply Forall_app. split; [|exact Hx]. rewrite app_assoc.
        apply Forall_app. split; [exact Hq|repeat constructor]. }
      unfold prepend. cbn [out trace].
      destruct Hcases as [[H1 H2]|[[H1 H2]|[H1 H2]]]; rewrite H1, H2.
      * exists (((preamble w ++ ti ++ handover) ++ t) ++ [RlClose]).
        split; [apply Forall_app; split; [exact Hall|repeat constructor]|].
        right. split; [auto|]. rewrite app_assoc. reflexivity.
      * exists ((preamble w ++ ti ++ handover) ++ t).
        split; [exact Hall|]. left. split; [reflexivity|].
        rewrite app_assoc. reflexivity.
      * exists ((preamble w ++ ti ++ handover) ++ t).
        split; [exact Hall|]. right. split; [auto|reflexivity].
    + exists (preamble w ++ ti ++ main_report e).
      split.
      { rewrite app_assoc. apply Forall_app. split; [exact Hq|].
        unfold main_report. destruct (instanceofError e); repeat constructor. }
      left. cbn [out trace]. split; [reflexivity|].
      rewrite <- !app_assoc. reflexivity.
  - rewrite validateEnvironment_run, Hm. cbn [out trace].
    eexists. split; [|left; split; [reflexivity|]].
    2: { rewrite app_comm_cons. reflexivity. }
    eapply Forall_impl; [apply failed_validation_events|].
    intros e He. exact (proj1 He).
Qed.


(** X10.  Whatever the SDKs answer and whatever is typed, no error escapes
    the script uncaught; [process.exit] is never called with a status other
    than 1, and it is the last thing the script does: no event follows
    it. *)
Theorem program_exit_statuses (input : list string) (w : world) :
  let r := program JSON_stringify sdk input w in
  (forall e, out r <> Throw e)
  /\ (forall c, out r = Exit c -> c = 1)
  /\ (forall pre c post,
        trace r = pre ++ ProcessExit c :: post ->
        post = [] /\ c = 1 /\ out r = Exit 1)
  /\ (out r = Exit 1 -> exists t, trace r = t ++ [ProcessExit 1]).
Proof.
  cbv zeta. split; [|split; [|split]].
  - intros e He. destruct (program_shape input w)
      as (t & _ & [[Ho _]|[[Ho|Ho] _]]); rewrite Ho in He; discriminate He.
  - intros c Hc. destruct (program_shape input w)
      as (t & _ & [[Ho _]|[[Ho|Ho] _]]); rewrite Ho in Hc;
      [injection Hc as <-; reflexivity|discriminate Hc|discriminate Hc].
  - destruct (program_shape input w)
      as (t & Ht & [[Ho E]|[Ho E]]); rewrite E.
    + intros pre c post Hsplit.
      destruct (marker_last is_exit t pre post (ProcessExit c) (ProcessExit 1)
                  Ht eq_refl Hsplit) as (-> & Hc & _).
      injection Hc as ->. auto.
    + intros pre c post Hsplit. exfalso.
      exact (marker_absent is_exit t pre post (ProcessExit c) Ht eq_refl Hsplit).
  - intros Hx. destruct (program_shape input w)
      as (t & Ht & [[Ho E]|[Ho E]]); [eauto|].
    destruct Ho as [Ho|Ho]; rewrite Ho in Hx; discriminate Hx.
Qed.

(** X11.  With a required variable missing the script does what
    [validateEnvironment] alone does, whatever the SDKs would answer and
    whatever is typed: no SDK is called, the snapshot file is not touched,
    no reader is opened, and the world is left as it was. *)
Theorem missing_credentials_stop_everything (input : list string) (w : world) :
  missing (env w) <> [] ->
  program JSON_stringify sdk input w = validateEnvironment w
  /\ out (program JSON_stringify sdk input w) = Exit 1
  /\ after (program JSON_stringify sdk input w) = w
  /\ count sdk_call (trace (program JSON_stringify sdk input w)) = 0%nat
  /\ count is_create (trace (program JSON_stringify sdk input w)) = 0%nat
  /\ wallet_accesses (trace (program JSON_stringify sdk input w)) = [].
Proof.
  intros Hm. rewrite program_run.
  destruct (missing (env w)) as [|v names] eqn:E; [congruence|].
  split; [reflexivity|]. rewrite validateEnvironment_run, E.
  cbn [out after trace]. split; [reflexivity|]. split; [reflexivity|].
  pose proof (failed_validation_events (v :: names)) as Hq.
  rewrite app_comm_cons.
  split; [|split].
  - rewrite count_app. rewrite count_none; [reflexivity|].
    eapply Forall_impl; [exact Hq|]. intros e He. apply He.
  - rewrite count_app. rewrite count_none; [reflexivity|].
    eapply Forall_impl; [exact Hq|]. intros e He. apply He.
  - rewrite wallet_accesses_app.
    assert (forall t, Forall (fun e => touches WALLET_DATA_FILE e = false) t ->
                      wallet_accesses t = []) as Hnone.
    { induction 1 as [|e t He _ IH]; [reflexivity|].
      unfold wallet_accesses in *. simpl. rewrite He. exact IH. }
    rewrite Hnone; [reflexivity|].
    eapply Forall_impl; [exact Hq|]. intros e He. apply He.
Qed.



End WholeScript.

Section WholeScriptEvents.

Context {WalletData : Type} (JSON_stringify : WalletData -> string)
        (sdk : Sdk WalletData).

(** What follows initialization in a run: no SDK call, no warning, and
    agent calls on the fixed thread only. *)
Lemma program_tail_events input w :
  missing (env w) = [] ->
  exists tail,
    trace (program JSON_stringify sdk input w)
    = (preamble w ++ trace (initializeAgent JSON_stringify sdk w)) ++ tail
    /\ Forall (fun e => sdk_call e = false /\ is_warning e = false
                 /\ forall text tid,
                      e = AgentStream text tid -> tid = thread_id agentConfig)
              tail.
Proof.
  intros Hm. rewrite (program_trace JSON_stringify sdk input w Hm).
  pose proof (initializeAgent_summary JSON_stringify sdk w)
    as (_ & _ & _ & _ & _ & Ho).
  unfold holds in Ho.
  eexists. split; [rewrite app_assoc; reflexivity|].
  destruct (out (initializeAgent JSON_stringify sdk w)) as [ac|e|c|].
  - destruct Ho as [Hcfg _]. apply Forall_app. split.
    + repeat constructor; discriminate.
    + pose proof (runChatMode_closes (fst ac) (snd ac) input
                    (after (initializeAgent JSON_stringify sdk w)))
        as (_ & _ & _ & Hchat & _).
      pose proof (runChatMode_thread (fst ac) (snd ac) input
                    (after (initializeAgent JSON_stringify sdk w))) as Hth.
      cbv zeta in Hchat.
      rewrite Forall_forall in Hchat, Hth. rewrite Forall_forall.
      intros e He. specialize (Hchat e He). specialize (Hth e He).
      repeat split; [destruct e; try discriminate Hchat; reflexivity
                    |destruct e; try discriminate Hchat; reflexivity|].
      intros text tid Heq. rewrite <- Hcfg. exact (Hth text tid Heq).
  - apply Forall_app. split; [|repeat constructor; discriminate].
    unfold main_report. destruct (instanceofError e);
      repeat constructor; discriminate.
  - repeat constructor; discriminate.
  - repeat constructor; discriminate.
Qed.

Lemma program_configurations input w c :
  missing (env w) = [] ->
  In (ConfigureWithWallet c) (trace (program JSON_stringify sdk input w)) ->
  c = config_of w.
Proof.
  intros Hm Hin.
  destruct (program_tail_events input w Hm) as (tail & Ht & Htail).
  pose proof (initializeAgent_summary JSON_stringify sdk w)
    as (_ & _ & _ & Hc & _).
  pose proof (startup_events JSON_stringify sdk w Hm) as Hs.
  unfold holds in Hc. rewrite Ht in Hin.
  apply in_app_or in Hin as [Hin|Hin];
    [apply in_app_or in Hin as [Hin|Hin]|].
  - exfalso. unfold preamble in Hin. rewrite validateEnvironment_run, Hm in Hin.
    cbn [trace] in Hin.
    destruct (truthy (env w !! "NETWORK_ID")); in_cases Hin.
  - exact (Hc c Hin).
  - exfalso. rewrite Forall_forall in Htail. apply list_elem_of_In in Hin.
    destruct (Htail _ Hin) as [H _]. discriminate H.
Qed.

(** X13.  Every message of a run goes to the agent on one and the same
    thread, the fixed identifier set up by [initializeAgent]: the scripted
    prompt and every forwarded line alike. *)
Theorem one_thread_for_every_turn
        (input : list string) (w : world) (text tid : string) :
  In (AgentStream text tid) (trace (program JSON_stringify sdk input w)) ->
  tid = "CDP AgentKit Chatbot Example!".
Proof.
  intros Hin. destruct (missing (env w)) as [|v names] eqn:Hm.
  - destruct (program_tail_events input w Hm) as (tail & Ht & Htail).
    pose proof (startup_events JSON_stringify sdk w Hm) as Hs.
    rewrite Ht in Hin. apply in_app_or in Hin as [Hin|Hin].
    + exfalso. rewrite Forall_forall in Hs. apply list_elem_of_In in Hin.
      destruct (Hs _ Hin) as (_ & _ & Hf & _). discriminate Hf.
    + rewrite Forall_forall in Htail. apply list_elem_of_In in Hin.
      destruct (Htail _ Hin) as (_ & _ & Hth). exact (Hth text tid eq_refl).
  - exfalso. rewrite program_run, Hm, validateEnvironment_run, Hm in Hin.
    cbn [trace] in Hin. destruct Hin as [Hin|Hin]; [discriminate Hin|].
    apply in_app_or in Hin as [Hin|Hin]; [|in_cases Hin].
    apply in_map_iff in Hin as (x & Hx & _). discriminate Hx.
Qed.

(** X14.  A network identifier that is set is honoured, in every run that
    passes the environment check: [validateEnvironment] prints nothing, no
    warning is printed anywhere in the run, every configuration handed to
    the wallet provider names that network, and one is handed over once the
    model client exists. *)
Theorem network_id_honoured
        (input : list string) (w : world) (network : string) :
  missing (env w) = [] ->
  env w !! "NETWORK_ID" = Some network ->
  network <> "" ->
  validateEnvironment w = mkRun (Done tt) w []
  /\ count is_warning (trace (program JSON_stringify sdk input w)) = 0%nat
  /\ (forall c, In (ConfigureWithWallet c)
                   (trace (program JSON_stringify sdk input w)) ->
                networkId c = network)
  /\ (forall u, ChatOpenAI sdk model_id = Ok u ->
                In (ConfigureWithWallet (config_of w))
                   (trace (program JSON_stringify sdk input w))).
Proof.
  intros Hm Hn Hne.
  assert (truthy (env w !! "NETWORK_ID") = true) as Htr.
  { rewrite Hn. destruct network; [congruence|reflexivity]. }
  pose proof (initializeAgent_summary JSON_stringify sdk w)
    as (_ & _ & Hinit & _ & Hin & _).
  unfold holds in Hinit, Hin.
  split; [|split; [|split]].
  - rewrite validateEnvironment_run, Hm, Htr. reflexivity.
  - destruct (program_tail_events input w Hm)
      as (tail & Ht & Htail).
    rewrite Ht. apply count_none.
    apply Forall_app. split; [apply Forall_app; split|].
    + unfold preamble. rewrite validateEnvironment_run, Hm, Htr.
      repeat constructor.
    + eapply Forall_impl; [exact Hinit|].
      intros e He. destruct e; try discriminate He; reflexivity.
    + eapply Forall_impl; [exact Htail|]. intros e He. apply He.
  - intros c Hc.
    rewrite (program_configurations input w c Hm Hc).
    unfold config_of. rewrite Hn. cbn [networkId].
    destruct network; [congruence|reflexivity].
  - intros u Hu. rewrite (program_trace JSON_stringify sdk input w Hm).
    apply in_or_app. right. apply in_or_app. left. exact (Hin u Hu).
Qed.

(** X15.  A network identifier set to the empty string counts as not set,
    in every run that passes the environment check: the warning is printed,
    every configuration handed to the wallet provider names [base-sepolia],
    and one is handed over once the model client exists. *)
Theorem empty_network_id_counts_as_unset
        (input : list string) (w : world) :
  missing (env w) = [] ->
  env w !! "NETWORK_ID" = Some "" ->
  validateEnvironment w = mkRun (Done tt) w [env_warning]
  /\ In env_warning (trace (program JSON_stringify sdk input w))
  /\ (forall c, In (ConfigureWithWallet c)
                   (trace (program JSON_stringify sdk input w)) ->
                networkId c = "base-sepolia")
  /\ (forall u, ChatOpenAI sdk model_id = Ok u ->
                In (ConfigureWithWallet (config_of w))
                   (trace (program JSON_stringify sdk input w))).
Proof.
  intros Hm Hn.
  assert (validateEnvironment w = mkRun (Done tt) w [env_warning]) as Hv.
  { rewrite validateEnvironment_run, Hm, Hn. reflexivity. }
  pose proof (initializeAgent_summary JSON_stringify sdk w)
    as (_ & _ & _ & _ & Hin & _).
  unfold holds in Hin.
  split; [exact Hv|]. split; [|split].
  - rewrite (program_trace JSON_stringify sdk input w Hm).
    unfold preamble. rewrite Hv. left. reflexivity.
  - intros c Hc.
    rewrite (program_configurations input w c Hm Hc).
    unfold config_of. rewrite Hn. reflexivity.
  - intros u Hu. rewrite (program_trace JSON_stringify sdk input w Hm).
    apply in_or_app. right. apply in_or_app. left. exact (Hin u Hu).
Qed.

(** X16.  The snapshot written by initialization is still there, unchanged,
    when the session is over: the chat changes no file and no environment
    variable. *)
Theorem snapshot_survives_session
        (input : list string) (w : world) (ac : Agent * AgentConfig) :
  missing (env w) = [] ->
  out (initializeAgent JSON_stringify sdk w) = Done ac ->
  let r := program JSON_stringify sdk input w in
  (exists wp d,
     configureWithWallet sdk (config_of w) = Ok wp
     /\ exportWallet wp = Ok d
     /\ files (after r) !! WALLET_DATA_FILE
        = Some (mkFile (JSON_stringify d) (readable_after_write w) true))
  /\ (forall p, p <> WALLET_DATA_FILE -> files (after r) !! p = files w !! p)
  /\ env (after r) = env w.
Proof.
  intros Hm Ho. cbv zeta.
  pose proof (initializeAgent_steps JSON_stringify sdk w) as [_ H].
  pose proof (initializeAgent_summary JSON_stringify sdk w)
    as (He & _ & _ & _ & _ & Hs).
  unfold holds in *.
  destruct (initializeAgent JSON_stringify sdk w) as [o w' t] eqn:E.
  cbn [out after] in *. subst o. destruct ac as [agent config].
  rewrite (program_run_done JSON_stringify sdk input w agent config w' t Hm E).
  pose proof (runChatMode_closes agent config input w')
    as (_ & _ & _ & _ & He' & Hf').
  cbv zeta in He', Hf'. unfold prepend. cbn [after].
  rewrite He', Hf'.
  destruct H as (_ & _ & _ & wp & d & H1 & H2 & H3).
  destruct Hs as (_ & _ & _ & _ & _ & _ & _ & Hother & _).
  split; [exists wp, d; auto|]. split; [exact Hother|exact He].
Qed.

End WholeScriptEvents.

Lemma incomplete_answer_fails (r : StreamCall) :
  complete r = false -> exists e, snd (answer r) = Some e.
Proof.
  intros H. destruct (snd (answer r)) as [e|] eqn:Hs; [eauto|].
  rewrite (answer_none _ Hs) in H. discriminate H.
Qed.

(** X17.  If the answer to the scripted prompt is not delivered to its end,
    the user is never prompted: the process exits with status 1 before the
    first [> ], and no input line is read or forwarded. *)
Theorem failed_opening_never_prompts
        (agent : Agent) (config : AgentConfig)
        (input : list string) (w : world) :
  complete (stream agent (submitted w) initialPrompt) = false ->
  let r := runChatMode agent config input w in
  out r = Exit 1
  /\ count is_question (trace r) = 0%nat
  /\ forwarded (trace r) = [initialPrompt]
  /\ count is_close (trace r) = 0%nat.
Proof.
  intros Hc. cbv zeta.
  destruct (incomplete_answer_fails _ Hc) as [e He].
  pose proof (opening_turn_events agent config w) as Hopen.
  rewrite runChatMode_run, He in *.
  unfold guarded, prepend. cbn [out after trace app].
  assert (Forall (fun x => is_question x = false /\ is_close x = false
                           /\ forwarded [x] = [])
                 (error_report e ++ [ProcessExit 1])) as Hr.
  { unfold error_report. destruct (instanceofError e); repeat constructor. }
  split; [reflexivity|]. split; [|split].
  - apply count_none. apply Forall_app. split.
    + eapply Forall_impl; [exact Hopen|].
      intros x Hx. destruct x; simpl in Hx; try discriminate; reflexivity.
    + eapply Forall_impl; [exact Hr|]. intros x Hx. apply Hx.
  - rewrite forwarded_app,
      (forwarded_none (error_report e ++ [ProcessExit 1])).
    + rewrite forwarded_app, (proj2 opening_quiet). cbn [forwarded app].
      rewrite (forwarded_logs _ (answer_logs _)). reflexivity.
    + eapply Forall_impl; [exact Hr|]. intros x Hx. apply Hx.
  - apply count_none. apply Forall_app. split.
    + eapply Forall_impl; [exact Hopen|].
      intros x Hx. destruct x; simpl in Hx; try discriminate; reflexivity.
    + eapply Forall_impl; [exact Hr|]. intros x Hx. apply Hx.
Qed.

(** ** More concrete runs *)

Lemma initializeAgent_calls_in_order_witness :
  List.filter sdk_call
    (trace (initializeAgent braces (sdkWith echoAgent) snapshotWorld))
  = sdk_sequence snapshotWorld.
Proof.
  apply (proj2 (initializeAgent_calls_in_order braces (sdkWith echoAgent)
                  snapshotWorld) (echoAgent, agentConfig)).
  vm_compute. reflexivity.
Defined.

Lemma initializeAgent_returns_only_if_witness :
  snd (echoAgent, agentConfig) = agentConfig
  /\ init_succeeds (sdkWith echoAgent) freshWorld (fst (echoAgent, agentConfig)).
Proof.
  apply (initializeAgent_returns_only_if braces (sdkWith echoAgent) freshWorld
           (echoAgent, agentConfig)).
  vm_compute. reflexivity.
Defined.


Lemma snapshot_passed_to_wallet_provider_witness :
  ("{old}" = "" ->
   cdpWalletData (mkWalletConfig (Some "name") (Some "key") (Some "{old}")
                                 "base-sepolia") = None)
  /\ ("{old}" <> "" ->
      cdpWalletData (mkWalletConfig (Some "name") (Some "key") (Some "{old}")
                                    "base-sepolia") = Some "{old}").
Proof.
  apply (snapshot_passed_to_wallet_provider braces (sdkWith echoAgent)
           snapshotWorld (mkFile "{old}" true true)
           (mkWalletConfig (Some "name") (Some "key") (Some "{old}")
                           "base-sepolia")).
  - vm_compute. reflexivity.
  - reflexivity.
  - vm_compute. auto 10.
Defined.


Lemma reader_closed_last_witness :
  [] = @nil event
  /\ out (runChatMode echoAgent agentConfig ["exit"] freshWorld) = Done tt
  /\ count is_create
       (removelast (trace (runChatMode echoAgent agentConfig ["exit"]
                             freshWorld))) = 1%nat.
Proof.
  apply (proj2 (reader_closed_last echoAgent agentConfig ["exit"] freshWorld)
           (removelast (trace (runChatMode echoAgent agentConfig ["exit"]
                                 freshWorld))) []).
  vm_compute. reflexivity.
Defined.

Lemma runChatMode_returns_only_on_exit_witness :
  exists ls l rest,
    ["hi"; "Exit"; "later"] = ls ++ l :: rest
    /\ In l exit_spellings
    /\ Forall (fun x => toLowerCase x <> "exit") ls
    /\ all_complete echoAgent (submitted freshWorld) (initialPrompt :: ls)
       = true.
Proof.
  apply (runChatMode_returns_only_on_exit echoAgent agentConfig
           ["hi"; "Exit"; "later"] freshWorld).
  vm_compute. reflexivity.
Defined.

Lemma failed_turn_ends_process_witness :
  let r := runChatMode flakyAgent agentConfig ([] ++ "hi" :: ["exit"])
                       freshWorld in
  out r = Exit 1
  /\ trace r =
     opening ++ turn flakyAgent agentConfig (submitted freshWorld) initialPrompt
       ++ turns flakyAgent agentConfig (submitted freshWorld ++ [initialPrompt])
            []
       ++ RlQuestion "> " :: AgentStream "hi" (thread_id agentConfig)
          :: flat_map printed
               [ {[ "agent" := mkNodeUpdate [mkMessage "thinking"] ]} ]
       ++ [ConsoleError [Str "Error:"; Str "connection lost"]; ProcessExit 1]
  /\ count is_close (trace r) = 0%nat
  /\ count is_question (trace r) = S (length (@nil string)).
Proof.
  apply (failed_turn_ends_process flakyAgent agentConfig [] "hi" ["exit"]
           freshWorld).
  - constructor.
  - vm_compute. reflexivity.
  - vm_compute. intros H. discriminate H.
  - vm_compute. reflexivity.
  - vm_compute. reflexivity.
Defined.

Lemma hollow_chunk_ends_process_witness :
  let r := runChatMode hollowAgent agentConfig ["hi"] freshWorld in
  out r = Exit 1
  /\ trace r =
     opening ++ AgentStream initialPrompt (thread_id agentConfig)
       :: flat_map printed
            [ {[ "tools" := mkNodeUpdate [mkMessage "lookup"] ]} ]
       ++ [ConsoleError
             [Str "Error:";
              Str "Cannot read properties of undefined (reading 'content')"];
           ProcessExit 1].
Proof.
  apply (hollow_chunk_ends_process hollowAgent agentConfig freshWorld ["hi"]
           [ {[ "tools" := mkNodeUpdate [mkMessage "lookup"] ]} ]
           {[ "agent" := mkNodeUpdate [] ]}
           [ {[ "agent" := mkNodeUpdate [mkMessage "never shown"] ]} ]
           None (mkNodeUpdate [])).
  - vm_compute. reflexivity.
  - vm_compute. reflexivity.
  - vm_compute. reflexivity.
  - reflexivity.
Defined.

Lemma missing_credentials_stop_everything_witness :
  program braces (sdkWith echoAgent) ["hi"] bareWorld
  = validateEnvironment bareWorld
  /\ out (program braces (sdkWith echoAgent) ["hi"] bareWorld) = Exit 1
  /\ after (program braces (sdkWith echoAgent) ["hi"] bareWorld) = bareWorld
  /\ count sdk_call (trace (program braces (sdkWith echoAgent) ["hi"]
                              bareWorld)) = 0%nat
  /\ count is_create (trace (program braces (sdkWith echoAgent) ["hi"]
                               bareWorld)) = 0%nat
  /\ wallet_accesses (trace (program braces (sdkWith echoAgent) ["hi"]
                               bareWorld)) = [].
Proof.
  apply (missing_credentials_stop_everything braces (sdkWith echoAgent)
           ["hi"] bareWorld).
  vm_compute. intros H. discriminate H.
Defined.


Lemma one_thread_for_every_turn_witness :
  "CDP AgentKit Chatbot Example!" = "CDP AgentKit Chatbot Example!".
Proof.
  apply (one_thread_for_every_turn braces (sdkWith echoAgent) ["hi"; "exit"]
           freshWorld "hi" "CDP AgentKit Chatbot Example!").
  vm_compute. auto 40.
Defined.

Lemma network_id_honoured_witness :
  validateEnvironment mainnetWorld = mkRun (Done tt) mainnetWorld []
  /\ count is_warning
       (trace (program braces brokenSdk ["exit"] mainnetWorld)) = 0%nat
  /\ (forall c, In (ConfigureWithWallet c)
                   (trace (program braces brokenSdk ["exit"] mainnetWorld)) ->
                networkId c = "base-mainnet")
  /\ (forall u, ChatOpenAI brokenSdk model_id = Ok u ->
                In (ConfigureWithWallet (config_of mainnetWorld))
                   (trace (program braces brokenSdk ["exit"] mainnetWorld))).
Proof.
  apply (network_id_honoured braces brokenSdk ["exit"] mainnetWorld
           "base-mainnet").
  - vm_compute. reflexivity.
  - vm_compute. reflexivity.
  - intros H. discriminate H.
Defined.

Lemma empty_network_id_counts_as_unset_witness :
  validateEnvironment emptyNetworkWorld
  = mkRun (Done tt) emptyNetworkWorld [env_warning]
  /\ In env_warning
        (trace (program braces brokenSdk ["exit"] emptyNetworkWorld))
  /\ (forall c, In (ConfigureWithWallet c)
                   (trace (program braces brokenSdk ["exit"]
                             emptyNetworkWorld)) ->
                networkId c = "base-sepolia")
  /\ (forall u, ChatOpenAI brokenSdk model_id = Ok u ->
                In (ConfigureWithWallet (config_of emptyNetworkWorld))
                   (trace (program braces brokenSdk ["exit"]
                             emptyNetworkWorld))).
Proof.
  apply (empty_network_id_counts_as_unset braces brokenSdk ["exit"]
           emptyNetworkWorld).
  - vm_compute. reflexivity.
  - vm_compute. reflexivity.
Defined.

Lemma snapshot_survives_session_witness :
  let r := program braces (sdkWith echoAgent) ["hi"; "exit"] snapshotWorld in
  (exists wp d,
     configureWithWallet (sdkWith echoAgent) (config_of snapshotWorld) = Ok wp
     /\ exportWallet wp = Ok d
     /\ files (after r) !! WALLET_DATA_FILE
        = Some (mkFile (braces d) (readable_after_write snapshotWorld) true))
  /\ (forall p, p <> WALLET_DATA_FILE ->
                files (after r) !! p = files snapshotWorld !! p)
  /\ env (after r) = env snapshotWorld.
Proof.
  apply (snapshot_survives_session braces (sdkWith echoAgent) ["hi"; "exit"]
           snapshotWorld (echoAgent, agentConfig)); vm_compute; reflexivity.
Defined.

Lemma failed_opening_never_prompts_witness :
  let r := runChatMode failingAgent agentConfig ["hi"] freshWorld in
  out r = Exit 1
  /\ count is_question (trace r) = 0%nat
  /\ forwarded (trace r) = [initialPrompt]
  /\ count is_close (trace r) = 0%nat.
Proof.
  apply (failed_opening_never_prompts failingAgent agentConfig ["hi"]
           freshWorld).
  reflexivity.
Defined.
